(** * openclaw: control commands of the auto-reply dispatcher

    A shallow embedding of
      - [src/auto-reply/group-activation.ts] ([normalizeGroupActivation],
        [parseActivationCommand]),
      - the command detector ([CONTROL_COMMAND_RE], [CONTROL_COMMAND_EXACT],
        [hasControlCommand]),
      - the reply command handler ([extractCompactInstructions],
        [buildCommandContext], [handleCommands]),
    followed by the properties of the command dispatcher.

    Conventions.
      - A JavaScript string is a Rocq [string] whose characters are the
        UTF-16 code units of the JavaScript string; the character type
        [ascii] holds the code units 0..255, so the strings the model ranges
        over are those of the Latin-1 range.  Fixed reply texts that contain
        other characters (the gear sign, the bullet) are written as literals;
        no function of the program inspects them.
      - [undefined] is [None]; a string is truthy when it is present and not
        empty ([truthy]).
      - Objects that the program mutates in place (session entries, the
        session store) live in a heap and are passed by reference.
      - Calls to collaborators that have an effect are recorded, in order, in
        the [trace] of the [World]; collaborators are assumed to return
        normally. *)

From Stdlib Require Import String Ascii NArith ZArith Bool List Lia.
From stdpp Require Import base option gmap strings.
Import ListNotations.
Local Open Scope string_scope.

(** ** JavaScript string primitives *)

Module Js.

(** [undefined] and the empty string are falsy. *)
Definition truthy (s : option string) : bool :=
  match s with
  | Some (String _ _) => true
  | _ => false
  end.

Definition code (c : ascii) : N := N_of_ascii c.

Definition between (lo hi n : N) : bool := ((lo <=? n) && (n <=? hi))%N.

(** WhiteSpace and LineTerminator code units: TAB, LF, VT, FF, CR, SP and
    NBSP (the only ones below 256); the set [\s] and [trim] use. *)
Definition isWhiteSpace (c : ascii) : bool :=
  between 9 13 (code c) || (code c =? 32)%N || (code c =? 160)%N.

(** [\w]: [A-Za-z0-9_]. *)
Definition isWordChar (c : ascii) : bool :=
  between 65 90 (code c) || between 97 122 (code c)
  || between 48 57 (code c) || (code c =? 95)%N.

(** [String.prototype.toLowerCase] on one code unit: A-Z and the Latin-1
    capitals U+00C0..U+00DE (without the multiplication sign U+00D7). *)
Definition toLowerCaseChar (c : ascii) : ascii :=
  let n := code c in
  if between 65 90 n || between 192 214 n || between 216 222 n
  then ascii_of_N (n + 32) else c.

(** Canonicalize of a case-insensitive, non-unicode regular expression:
    the upper-case form of the code unit when it is a single code unit and
    does not turn a non-ASCII unit into an ASCII one.  Below 256 that is
    a-z to A-Z and U+00E0..U+00FE (without the division sign U+00F7) to
    U+00C0..U+00DE; U+00B5 and U+00FF map outside the range, to units no
    other code unit below 256 maps to, and are kept as they are. *)
Definition canonicalize (c : ascii) : ascii :=
  let n := code c in
  if between 97 122 n || between 224 246 n || between 248 254 n
  then ascii_of_N (n - 32) else c.

Fixpoint toLowerCase (s : string) : string :=
  match s with
  | EmptyString => EmptyString
  | String c r => String (toLowerCaseChar c) (toLowerCase r)
  end.

Fixpoint trimStart (s : string) : string :=
  match s with
  | String c r => if isWhiteSpace c then trimStart r else s
  | EmptyString => EmptyString
  end.

Fixpoint trimEnd (s : string) : string :=
  match s with
  | EmptyString => EmptyString
  | String c r =>
      match trimEnd r with
      | EmptyString => if isWhiteSpace c then EmptyString else String c EmptyString
      | r' => String c r'
      end
  end.

Definition trim (s : string) : string := trimEnd (trimStart s).

(** [s.startsWith(p)]. *)
Definition startsWith (s p : string) : bool := String.prefix p s.

(** [s.slice(n)] for [0 <= n]. *)
Fixpoint slice (n : nat) (s : string) : string :=
  match n, s with
  | O, _ => s
  | S n', String _ r => slice n' r
  | S _, EmptyString => EmptyString
  end.

(** [xs.includes(x)] on an array of strings. *)
Definition includes (xs : list string) (x : string) : bool :=
  existsb (String.eqb x) xs.

Definition head (s : string) : option ascii :=
  match s with
  | String c _ => Some c
  | EmptyString => None
  end.

Fixpoint last (s : string) : option ascii :=
  match s with
  | EmptyString => None
  | String c EmptyString => Some c
  | String _ r => last r
  end.

(** *** Pieces of regular expressions *)

(** A literal of a case-insensitive pattern, matched at the start of [s]:
    the matched text and what follows it. *)
Fixpoint matchLiteral (pat s : string) : option (string * string) :=
  match pat, s with
  | EmptyString, _ => Some (EmptyString, s)
  | String p pat', String c r =>
      if Ascii.eqb (canonicalize p) (canonicalize c)
      then match matchLiteral pat' r with
           | Some (m, rest) => Some (String c m, rest)
           | None => None
           end
      else None
  | String _ _, EmptyString => None
  end.

Definition isWord (o : option ascii) : bool :=
  match o with
  | Some c => isWordChar c
  | None => false
  end.

(** [\b] between the text matched so far and the text that follows. *)
Definition wordBoundary (before after : string) : bool :=
  xorb (isWord (last before)) (isWord (head after)).

(** The longest prefix of characters that satisfy [f], and the rest. *)
Fixpoint span (f : ascii -> bool) (s : string) : string * string :=
  match s with
  | String c r =>
      if f c then let '(a, b) := span f r in (String c a, b)
      else (EmptyString, s)
  | EmptyString => (EmptyString, EmptyString)
  end.

(** The class [[a-zA-Z]] of a case-insensitive pattern. *)
Definition isLetter (c : ascii) : bool :=
  between 65 90 (code (canonicalize c)).

(** The lookahead [(?=$|\s|:)]. *)
Definition tokenEnd (rest : string) : bool :=
  match rest with
  | EmptyString => true
  | String c _ => isWhiteSpace c || Ascii.eqb c ":"%char
  end.

(** [\/(?:t1|t2|...)(?=$|\s|:)\b] matched at the start of [s]: the
    alternatives are tried in order, and the next one is tried when what
    follows an alternative fails. *)
Definition slashTokenAt (tokens : list string) (s : string) : bool :=
  match s with
  | String "/" r =>
      existsb (fun tok =>
                 match matchLiteral tok r with
                 | Some (m, rest) =>
                     tokenEnd rest && wordBoundary (String "/" m) rest
                 | None => false
                 end) tokens
  | _ => false
  end.

(** The match after a white space, at any position of [s]. *)
Fixpoint slashTokenAfterSpace (tokens : list string) (s : string) : bool :=
  match s with
  | String c r =>
      (isWhiteSpace c && slashTokenAt tokens r)
      || slashTokenAfterSpace tokens r
  | EmptyString => false
  end.

(** [/(?:^|\s)\/(?:t1|t2|...)(?=$|\s|:)\b/i.test(s)]. *)
Definition testSlashToken (tokens : list string) (s : string) : bool :=
  slashTokenAt tokens s || slashTokenAfterSpace tokens s.

End Js.

(** ** group-activation.ts *)

Inductive GroupActivationMode := mention | always.

Definition modeText (m : GroupActivationMode) : string :=
  match m with
  | mention => "mention"
  | always => "always"
  end.

Definition normalizeGroupActivation (raw : option string)
  : option GroupActivationMode :=
  let value := option_map (fun r => Js.toLowerCase (Js.trim r)) raw in
  match value with
  | Some v =>
      if String.eqb v "mention" then Some mention
      else if String.eqb v "always" then Some always
      else None
  | None => None
  end.

Record ActivationCommand := {
  hasCommand : bool;
  mode : option GroupActivationMode;
}.

(** [trimmed.match(/^\/activation\b(?:\s+([a-zA-Z]+))?/i)]: [None] when
    there is no match, otherwise the capture group ([None] when the optional
    group did not take part in the match). *)
Definition matchActivation (trimmed : string) : option (option string) :=
  match Js.matchLiteral "/activation" trimmed with
  | Some (m, rest) =>
      if Js.wordBoundary m rest then
        let '(spaces, rest') := Js.span Js.isWhiteSpace rest in
        let '(letters, _) := Js.span Js.isLetter rest' in
        match spaces, letters with
        | String _ _, String _ _ => Some (Some letters)
        | _, _ => Some None
        end
      else None
  | None => None
  end.

Definition parseActivationCommand (raw : option string) : ActivationCommand :=
  if negb (Js.truthy raw) then {| hasCommand := false; mode := None |}
  else
    let trimmed := Js.trim (default "" raw) in
    if negb (Js.truthy (Some trimmed))
    then {| hasCommand := false; mode := None |}
    else
      match matchActivation trimmed with
      | None => {| hasCommand := false; mode := None |}
      | Some group1 =>
          {| hasCommand := true; mode := normalizeGroupActivation group1 |}
      end.

(** ** The command detector *)

Definition CONTROL_COMMAND_TOKENS : list string :=
  [ "status"; "help"; "thinking"; "think"; "t"; "verbose"; "v"; "elevated";
    "elev"; "model"; "queue"; "activation"; "send"; "restart"; "reset";
    "new"; "compact" ].

Definition CONTROL_COMMAND_RE_test (text : string) : bool :=
  Js.testSlashToken CONTROL_COMMAND_TOKENS text.

Definition CONTROL_COMMAND_EXACT : list string :=
  [ "/help"; "/status"; "/restart"; "/activation"; "/send"; "/reset";
    "/new"; "/compact" ].

Definition hasControlCommand (text : option string) : bool :=
  if negb (Js.truthy text) then false
  else
    let text' := default "" text in
    let trimmed := Js.trim text' in
    if negb (Js.truthy (Some trimmed)) then false
    else
      let lowered := Js.toLowerCase trimmed in
      if Js.includes CONTROL_COMMAND_EXACT lowered then true
      else CONTROL_COMMAND_RE_test text'.

(** ** Data model of the reply command handler *)

Inductive SendPolicyMode := allow | deny | inherit.

Module SendPolicy.
(** What [parseSendPolicyCommand] (send-policy.ts) returns. *)
Record Command := {
  hasCommand : bool;
  mode : option SendPolicyMode;
}.
End SendPolicy.

(** Types declared elsewhere in the repository, of which this code sees no
    structure. *)
Class ExternalTypes := {
  ClawdbotConfig : Type;
  MsgContext : Type;
  SkillsSnapshot : Type;
}.

(** References to heap objects. *)
Abbreviation loc := positive.

Section DataModel.
Context `{ExternalTypes}.

(** The fields of a session entry (config/sessions.ts) that the handler
    reads or writes.  A field that can be absent is an [option]. *)
Record SessionEntry := {
  sessionId : option string;
  groupActivation : option GroupActivationMode;
  groupActivationNeedsSystemIntro : option bool;
  sendPolicy : option SendPolicyMode;
  abortedLastRun : option bool;
  compactionCount : option Z;
  inputTokens : option Z;
  outputTokens : option Z;
  totalTokens : option Z;
  contextTokens : option Z;
  updatedAt : Z;
  chatType : option string;
  surface : option string;
  skillsSnapshot : option SkillsSnapshot;
}.

Definition set_groupActivation (v : option GroupActivationMode)
           (e : SessionEntry) : SessionEntry :=
  {| sessionId := sessionId e; groupActivation := v;
     groupActivationNeedsSystemIntro := groupActivationNeedsSystemIntro e;
     sendPolicy := sendPolicy e; abortedLastRun := abortedLastRun e;
     compactionCount := compactionCount e; inputTokens := inputTokens e;
     outputTokens := outputTokens e; totalTokens := totalTokens e;
     contextTokens := contextTokens e; updatedAt := updatedAt e;
     chatType := chatType e; surface := surface e;
     skillsSnapshot := skillsSnapshot e |}.

Definition set_groupActivationNeedsSystemIntro (v : option bool)
           (e : SessionEntry) : SessionEntry :=
  {| sessionId := sessionId e; groupActivation := groupActivation e;
     groupActivationNeedsSystemIntro := v;
     sendPolicy := sendPolicy e; abortedLastRun := abortedLastRun e;
     compactionCount := compactionCount e; inputTokens := inputTokens e;
     outputTokens := outputTokens e; totalTokens := totalTokens e;
     contextTokens := contextTokens e; updatedAt := updatedAt e;
     chatType := chatType e; surface := surface e;
     skillsSnapshot := skillsSnapshot e |}.

(** [entry.sendPolicy = v], and [delete entry.sendPolicy] for [None]. *)
Definition set_sendPolicy (v : option SendPolicyMode)
           (e : SessionEntry) : SessionEntry :=
  {| sessionId := sessionId e; groupActivation := groupActivation e;
     groupActivationNeedsSystemIntro := groupActivationNeedsSystemIntro e;
     sendPolicy := v; abortedLastRun := abortedLastRun e;
     compactionCount := compactionCount e; inputTokens := inputTokens e;
     outputTokens := outputTokens e; totalTokens := totalTokens e;
     contextTokens := contextTokens e; updatedAt := updatedAt e;
     chatType := chatType e; surface := surface e;
     skillsSnapshot := skillsSnapshot e |}.

Definition set_abortedLastRun (v : option bool)
           (e : SessionEntry) : SessionEntry :=
  {| sessionId := sessionId e; groupActivation := groupActivation e;
     groupActivationNeedsSystemIntro := groupActivationNeedsSystemIntro e;
     sendPolicy := sendPolicy e; abortedLastRun := v;
     compactionCount := compactionCount e; inputTokens := inputTokens e;
     outputTokens := outputTokens e; totalTokens := totalTokens e;
     contextTokens := contextTokens e; updatedAt := updatedAt e;
     chatType := chatType e; surface := surface e;
     skillsSnapshot := skillsSnapshot e |}.

Definition set_compactionCount (v : option Z)
           (e : SessionEntry) : SessionEntry :=
  {| sessionId := sessionId e; groupActivation := groupActivation e;
     groupActivationNeedsSystemIntro := groupActivationNeedsSystemIntro e;
     sendPolicy := sendPolicy e; abortedLastRun := abortedLastRun e;
     compactionCount := v; inputTokens := inputTokens e;
     outputTokens := outputTokens e; totalTokens := totalTokens e;
     contextTokens := contextTokens e; updatedAt := updatedAt e;
     chatType := chatType e; surface := surface e;
     skillsSnapshot := skillsSnapshot e |}.

Definition set_updatedAt (v : Z) (e : SessionEntry) : SessionEntry :=
  {| sessionId := sessionId e; groupActivation := groupActivation e;
     groupActivationNeedsSystemIntro := groupActivationNeedsSystemIntro e;
     sendPolicy := sendPolicy e; abortedLastRun := abortedLastRun e;
     compactionCount := compactionCount e; inputTokens := inputTokens e;
     outputTokens := outputTokens e; totalTokens := totalTokens e;
     contextTokens := contextTokens e; updatedAt := v;
     chatType := chatType e; surface := surface e;
     skillsSnapshot := skillsSnapshot e |}.

Record CommandContext := {
  cmd_surface : string;
  isWhatsAppSurface : bool;
  ownerList : list string;
  isAuthorizedSender : bool;
  senderE164 : option string;
  abortKey : option string;
  rawBodyNormalized : string;
  commandBodyNormalized : string;
  from : option string;
  to : option string;
}.

(** The only field of the inline directives the handler reads. *)
Record InlineDirectives := {
  hasStatusDirective : bool;
}.

Record ReplyPayload := { text : string }.

Record DispatchResult := {
  reply : option ReplyPayload;
  shouldContinue : bool;
}.

(** What [resolveCommandAuthorization] (command-auth.ts) returns. *)
Record CommandAuthorization := {
  auth_isWhatsAppSurface : bool;
  auth_ownerList : list string;
  auth_isAuthorizedSender : bool;
  auth_senderE164 : option string;
  auth_from : option string;
  auth_to : option string;
}.

(** The argument of [compactEmbeddedPiSession]; [bashElevated] is the
    constant [{enabled: false, allowed: false, defaultLevel: "off"}]. *)
Record CompactArgs := {
  ca_sessionId : string;
  ca_sessionKey : option string;
  ca_surface : string;
  ca_sessionFile : string;
  ca_workspaceDir : string;
  ca_config : ClawdbotConfig;
  ca_skillsSnapshot : option SkillsSnapshot;
  ca_provider : string;
  ca_model : string;
  ca_thinkLevel : option string;
  ca_customInstructions : option string;
  ca_ownerNumbers : option (list string);
}.

(** The result of [compactEmbeddedPiSession]: [cr_tokensBefore] is
    [result.result?.tokensBefore]. *)
Record CompactResult := {
  cr_ok : bool;
  cr_compacted : bool;
  cr_reason : option string;
  cr_tokensBefore : option Z;
}.

(** The argument of [buildStatusMessage]; [agent] is built there from
    [sa_config], [sa_model] and [sa_contextTokens]. *)
Record StatusArgs := {
  sa_config : ClawdbotConfig;
  sa_model : string;
  sa_contextTokens : Z;
  sa_workspaceDir : string;
  sa_sessionEntry : option SessionEntry;
  sa_sessionKey : option string;
  sa_sessionScope : option string;
  sa_storePath : option string;
  sa_groupActivation : option GroupActivationMode;
  sa_resolvedThink : option string;
  sa_resolvedVerbose : string;
  sa_resolvedElevated : option string;
  sa_modelAuth : option string;
  sa_webLinked : bool;
  sa_webAuthAgeMs : option Z;
  sa_heartbeatSeconds : Z;
}.

(** The auth profile store (agents/auth-profiles.ts): profile id to the
    [type] field of the profile. *)
Record AuthProfileStore := {
  profiles : gmap string (option string);
}.

Record EnvApiKey := {
  apiKey : option string;
  source : string;
}.

End DataModel.

(** ** Collaborators

    Functions of the repository that the handler calls and that live in
    other files.  The pure ones are functions; for the ones that ask the
    environment, the class holds the answer the environment gives. *)
Class Collaborators `{ExternalTypes} := {
  (** templating.ts: the fields [Body] and [Surface] of the context *)
  ctxBody : MsgContext -> option string;
  ctxSurface : MsgContext -> option string;
  (** send-policy.ts *)
  parseSendPolicyCommand : option string -> SendPolicy.Command;
  (** utils.ts *)
  normalizeE164 : string -> string;
  (** reply/abort.ts *)
  isAbortTrigger : option string -> bool;
  (** reply/mentions.ts *)
  stripStructuralPrefixes : string -> string;
  stripMentions : string -> MsgContext -> ClawdbotConfig -> string;
  (** command-auth.ts *)
  resolveCommandAuthorization :
    MsgContext -> ClawdbotConfig -> bool -> CommandAuthorization;
  (** config/sessions.ts *)
  resolveSessionTranscriptPath : string -> string;
  (** status.ts *)
  buildHelpMessage : string;
  buildStatusMessage : StatusArgs -> string;
  formatContextUsageShort : option Z -> option Z -> string;
  formatTokenCount : Z -> string;
  (** sessions/send-policy.ts: cfg, entry, sessionKey, surface, chatType *)
  resolveSendPolicy :
    ClawdbotConfig -> option SessionEntry -> option string ->
    string -> option string -> SendPolicyMode;
  (** agents/auth-profiles.ts, agents/model-auth.ts *)
  ensureAuthProfileStore : AuthProfileStore;
  listProfilesForProvider : AuthProfileStore -> string -> list string;
  resolveEnvApiKey : string -> option EnvApiKey;
  getCustomProviderApiKey : ClawdbotConfig -> string -> option string;
  (** web/session.ts, web/reconnect.ts *)
  webAuthExists : bool;
  getWebAuthAgeMs : option Z;
  resolveHeartbeatSeconds : ClawdbotConfig -> Z;
  (** infra/restart.ts: the restart method [triggerClawdbotRestart] reports *)
  restartMethod : string;
  (** agents/pi-embedded.ts: whether the run of a session ends within the
      given number of milliseconds once it is asked to stop, and what a
      compaction returns, given the runs still active when it is called *)
  runEndsWithin : string -> Z -> bool;
  compactionOutcome : CompactArgs -> gset string -> CompactResult;
}.

(** ** The world the handler runs in *)

Section World.
Context `{Collaborators}.

Inductive Event :=
| EvLogVerbose (message : string)
| EvSaveSessionStore (storePath : string)
                     (snapshot : gmap string SessionEntry)
| EvIsEmbeddedPiRunActive (sessionId : string)
| EvAbortEmbeddedPiRun (sessionId : string)
| EvWaitForEmbeddedPiRunEnd (sessionId : string) (timeoutMs : Z)
                            (ended : bool)
| EvCompactEmbeddedPiSession (args : CompactArgs)
| EvResolveDefaultThinkingLevel
| EvTriggerClawdbotRestart
| EvEnqueueSystemEvent (line : string).

Record World := {
  (** session entry objects, by reference *)
  entries : gmap loc SessionEntry;
  (** session store objects: session key to the entry object stored *)
  stores : gmap loc (gmap string loc);
  (** what [saveSessionStore] last wrote, by store path *)
  disk : gmap string (gmap string SessionEntry);
  (** the abort memory of reply/abort.ts *)
  abortMemory : gmap string bool;
  (** the session ids with an embedded run in progress *)
  activeRuns : gset string;
  (** what [Date.now()] returns *)
  clock : Z;
  (** the calls made so far, oldest first *)
  trace : list Event;
}.

Definition with_entries (v : gmap loc SessionEntry) (w : World) : World :=
  {| entries := v; stores := stores w; disk := disk w;
     abortMemory := abortMemory w; activeRuns := activeRuns w;
     clock := clock w; trace := trace w |}.

Definition with_stores (v : gmap loc (gmap string loc)) (w : World) : World :=
  {| entries := entries w; stores := v; disk := disk w;
     abortMemory := abortMemory w; activeRuns := activeRuns w;
     clock := clock w; trace := trace w |}.

Definition with_disk (v : gmap string (gmap string SessionEntry))
           (w : World) : World :=
  {| entries := entries w; stores := stores w; disk := v;
     abortMemory := abortMemory w; activeRuns := activeRuns w;
     clock := clock w; trace := trace w |}.

Definition with_abortMemory (v : gmap string bool) (w : World) : World :=
  {| entries := entries w; stores := stores w; disk := disk w;
     abortMemory := v; activeRuns := activeRuns w;
     clock := clock w; trace := trace w |}.

Definition with_activeRuns (v : gset string) (w : World) : World :=
  {| entries := entries w; stores := stores w; disk := disk w;
     abortMemory := abortMemory w; activeRuns := v;
     clock := clock w; trace := trace w |}.

Definition with_clock (v : Z) (w : World) : World :=
  {| entries := entries w; stores := stores w; disk := disk w;
     abortMemory := abortMemory w; activeRuns := activeRuns w;
     clock := v; trace := trace w |}.

Definition emit (e : Event) (w : World) : World :=
  {| entries := entries w; stores := stores w; disk := disk w;
     abortMemory := abortMemory w; activeRuns := activeRuns w;
     clock := clock w; trace := trace w ++ [e] |}.

(** *** Computations that read and change the world *)

Definition M (A : Type) : Type := World -> A * World.

Definition ret {A} (a : A) : M A := fun w => (a, w).

Definition bind {A B} (m : M A) (k : A -> M B) : M B :=
  fun w => let '(a, w') := m w in k a w'.

Definition get : M World := fun w => (w, w).

Definition modify (f : World -> World) : M unit := fun w => (tt, f w).

(** A statement guarded by [if (c)] with no [else]. *)
Definition when (c : bool) (m : M unit) : M unit :=
  if c then m else ret tt.

End World.

Declare Scope cmd_scope.
Delimit Scope cmd_scope with cmd.
Notation "'let*' x ':=' m 'in' k" := (bind m (fun x => k))
  (at level 10, x name, m at level 100, k at level 200) : cmd_scope.
Notation "m ';;;' k" := (bind m (fun _ => k))
  (at level 100, k at level 200, right associativity) : cmd_scope.

Section Effects.
Context `{Collaborators}.
Local Open Scope cmd_scope.

Definition logVerbose (message : string) : M unit :=
  modify (emit (EvLogVerbose message)).

Definition dateNow : M Z := fun w => (clock w, w).

(** The entry object a reference points to. *)
Definition readEntry (l : option loc) : M (option SessionEntry) :=
  fun w => (l ≫= fun l' => entries w !! l', w).

(** [entry.field = v], as a change of the object [l]. *)
Definition updateEntry (l : loc) (f : SessionEntry -> SessionEntry)
  : M unit :=
  modify (fun w => with_entries (alter f l (entries w)) w).

(** [store[key] = entry]: the store holds the reference. *)
Definition storeSet (s : loc) (key : string) (l : loc) : M unit :=
  modify (fun w => with_stores (alter (insert key l) s (stores w)) w).

(** The entries a store object holds, by value. *)
Definition snapshot (w : World) (s : loc) : gmap string SessionEntry :=
  omap (fun l => entries w !! l) (default ∅ (stores w !! s)).

(** config/sessions.ts [saveSessionStore]: the whole store is written. *)
Definition saveSessionStore (storePath : string) (s : loc) : M unit :=
  modify (fun w =>
    emit (EvSaveSessionStore storePath (snapshot w s))
         (with_disk (<[storePath := snapshot w s]> (disk w)) w)).

(** reply/abort.ts [setAbortMemory]. *)
Definition setAbortMemory (key : string) (v : bool) : M unit :=
  modify (fun w => with_abortMemory (<[key := v]> (abortMemory w)) w).

Definition isEmbeddedPiRunActive (sessionId : string) : M bool :=
  fun w => (bool_decide (sessionId ∈ activeRuns w),
            emit (EvIsEmbeddedPiRunActive sessionId) w).

(** The run is asked to stop; it stops later, if it does. *)
Definition abortEmbeddedPiRun (sessionId : string) : M unit :=
  modify (emit (EvAbortEmbeddedPiRun sessionId)).

(** Returns when the run has ended or [timeoutMs] have passed, whichever
    comes first; the result tells which. *)
Definition waitForEmbeddedPiRunEnd (sessionId : string) (timeoutMs : Z)
  : M bool :=
  fun w =>
    let ended := runEndsWithin sessionId timeoutMs in
    (ended,
     emit (EvWaitForEmbeddedPiRunEnd sessionId timeoutMs ended)
          (if ended
           then with_activeRuns (activeRuns w ∖ {[sessionId]}) w
           else w)).

Definition compactEmbeddedPiSession (args : CompactArgs) : M CompactResult :=
  fun w => (compactionOutcome args (activeRuns w),
            emit (EvCompactEmbeddedPiSession args) w).

Definition triggerClawdbotRestart : M string :=
  fun w => (restartMethod, emit EvTriggerClawdbotRestart w).

Definition enqueueSystemEvent (line : string) : M unit :=
  modify (emit (EvEnqueueSystemEvent line)).

End Effects.

(** ** The reply command handler *)

Section Commands.
Context `{Collaborators}.
Local Open Scope cmd_scope.

(** [s.includes(sub)] on strings. *)
Fixpoint includesText (s sub : string) : bool :=
  Js.startsWith s sub
  || match s with
     | String _ r => includesText r sub
     | EmptyString => false
     end.

Definition resolveModelAuthLabel (provider : option string)
           (cfg : ClawdbotConfig) : option string :=
  let resolved := option_map Js.trim provider in
  match resolved with
  | Some (String _ _ as resolved) =>
      let store := ensureAuthProfileStore in
      let profileIds := listProfilesForProvider store resolved in
      let modes :=
        omap (fun id => match mjoin (profiles store !! id) with
                        | Some (String _ _ as t) => Some t
                        | _ => None
                        end) profileIds in
      let fromProfiles :=
        match profileIds with
        | [] => None
        | _ =>
            if Js.includes modes "oauth" && Js.includes modes "api_key"
            then Some "mixed"
            else if Js.includes modes "oauth" then Some "oauth"
            else if Js.includes modes "api_key" then Some "api-key"
            else None
        end in
      match fromProfiles with
      | Some label => Some label
      | None =>
          let envKey := resolveEnvApiKey resolved in
          match envKey with
          | Some k =>
              if Js.truthy (apiKey k)
              then Some (if includesText (source k) "OAUTH_TOKEN"
                         then "oauth" else "api-key")
              else if Js.truthy (getCustomProviderApiKey cfg resolved)
                   then Some "api-key" else Some "unknown"
          | None =>
              if Js.truthy (getCustomProviderApiKey cfg resolved)
              then Some "api-key" else Some "unknown"
          end
      end
  | _ => None
  end.

Definition extractCompactInstructions (rawBody : option string)
           (ctx : MsgContext) (cfg : ClawdbotConfig) (isGroup : bool)
  : option string :=
  let raw := stripStructuralPrefixes (default "" rawBody) in
  let stripped := if isGroup then stripMentions raw ctx cfg else raw in
  let trimmed := Js.trim stripped in
  if negb (Js.truthy (Some trimmed)) then None
  else
    let lowered := Js.toLowerCase trimmed in
    if negb (Js.startsWith lowered "/compact") then None
    else
      let rest := Js.trimStart (Js.slice (String.length "/compact") trimmed) in
      let rest := if Js.startsWith rest ":"
                  then Js.trimStart (Js.slice 1 rest) else rest in
      match rest with
      | String _ _ => Some rest
      | EmptyString => None
      end.

Definition buildCommandContext (ctx : MsgContext) (cfg : ClawdbotConfig)
           (sessionKey : option string) (isGroup : bool)
           (triggerBodyNormalized : string) (commandAuthorized : bool)
  : CommandContext :=
  let auth := resolveCommandAuthorization ctx cfg commandAuthorized in
  let surface := Js.toLowerCase (Js.trim (default "" (ctxSurface ctx))) in
  let orUndefined (s : option string) :=
    if Js.truthy s then s else None in
  let abortKey :=
    match sessionKey with
    | Some k => Some k
    | None =>
        match orUndefined (auth_from auth) with
        | Some f => Some f
        | None => orUndefined (auth_to auth)
        end
    end in
  let rawBodyNormalized := triggerBodyNormalized in
  let commandBodyNormalized :=
    if isGroup then stripMentions rawBodyNormalized ctx cfg
    else rawBodyNormalized in
  {| cmd_surface := surface;
     isWhatsAppSurface := auth_isWhatsAppSurface auth;
     ownerList := auth_ownerList auth;
     isAuthorizedSender := auth_isAuthorizedSender auth;
     senderE164 := auth_senderE164 auth;
     abortKey := abortKey;
     rawBodyNormalized := rawBodyNormalized;
     commandBodyNormalized := commandBodyNormalized;
     from := auth_from auth;
     to := auth_to auth |}.

(** The parameters of [handleCommands].  [sessionEntry] and [sessionStore]
    are references to objects; [defaultGroupActivation] and
    [resolveDefaultThinkingLevel] are what the two callbacks return. *)
Record Params := {
  ctx : MsgContext;
  cfg : ClawdbotConfig;
  command : CommandContext;
  directives : InlineDirectives;
  sessionEntry : option loc;
  sessionStore : option loc;
  sessionKey : option string;
  storePath : option string;
  sessionScope : option string;
  workspaceDir : string;
  defaultGroupActivation : GroupActivationMode;
  resolvedThinkLevel : option string;
  resolvedVerboseLevel : string;
  resolvedElevatedLevel : option string;
  resolveDefaultThinkingLevel : option string;
  provider : string;
  model : string;
  params_contextTokens : Z;
  isGroup : bool;
}.

Definition silentDrop : DispatchResult :=
  {| reply := None; shouldContinue := false |}.

Definition replyText (t : string) : DispatchResult :=
  {| reply := Some {| text := t |}; shouldContinue := false |}.

(** [command.senderE164 || "<unknown>"]. *)
Definition senderLabel (c : CommandContext) : string :=
  if Js.truthy (senderE164 c) then default "" (senderE164 c)
  else "<unknown>".

(** The guard [sessionEntry && sessionStore && sessionKey]: the entry, the
    store and the key when all three are truthy. *)
Definition sessionTarget (p : Params) : option (loc * loc * string) :=
  match sessionEntry p, sessionStore p, sessionKey p with
  | Some e, Some s, Some (String _ _ as key) => Some (e, s, key)
  | _, _, _ => None
  end.

(** The three statements that follow every change of the entry:
    [sessionEntry.updatedAt = Date.now()],
    [sessionStore[sessionKey] = sessionEntry] and
    [if (storePath) await saveSessionStore(storePath, sessionStore)]. *)
Definition touchAndSave (p : Params) (e s : loc) (key : string) : M unit :=
  let* now := dateNow in
  updateEntry e (set_updatedAt now);;;
  storeSet s key e;;;
  match storePath p with
  | Some (String _ _ as path) => saveSessionStore path s
  | _ => ret tt
  end.

(** Modelled from the spec: [incrementCompactionCount] of
    reply/session-updates.ts is not among the sources.  The spec (4.3):
    "increment compactionCount via a dedicated counter-increment operation,
    bump updatedAt, persist". *)
Definition incrementCompactionCount (p : Params) : M unit :=
  match sessionTarget p with
  | Some (e, s, key) =>
      updateEntry e (fun x =>
        set_compactionCount (Some (default 0%Z (compactionCount x) + 1)%Z) x);;;
      touchAndSave p e s key
  | None => ret tt
  end.

(** The callback [resolveDefaultThinkingLevel()]. *)
Definition callResolveDefaultThinkingLevel (p : Params)
  : M (option string) :=
  fun w => (resolveDefaultThinkingLevel p,
            emit EvResolveDefaultThinkingLevel w).

(** [resolvedThinkLevel ?? (await resolveDefaultThinkingLevel())]. *)
Definition thinkLevelOrDefault (p : Params) : M (option string) :=
  match resolvedThinkLevel p with
  | Some t => ret (Some t)
  | None => callResolveDefaultThinkingLevel p
  end.

(** *** The triggers, in the order [handleCommands] tests them *)

Definition resetRequested (c : CommandContext) : bool :=
  String.eqb (commandBodyNormalized c) "/reset"
  || String.eqb (commandBodyNormalized c) "/new".

Definition activationCommand (c : CommandContext) : ActivationCommand :=
  parseActivationCommand (Some (commandBodyNormalized c)).

Definition sendPolicyCommand (c : CommandContext) : SendPolicy.Command :=
  parseSendPolicyCommand (Some (commandBodyNormalized c)).

Definition restartRequested (c : CommandContext) : bool :=
  String.eqb (commandBodyNormalized c) "/restart"
  || Js.startsWith (commandBodyNormalized c) "/restart ".

Definition helpRequested (c : CommandContext) : bool :=
  String.eqb (commandBodyNormalized c) "/help"
  || Js.testSlashToken ["help"] (commandBodyNormalized c).

Definition statusRequested (d : InlineDirectives) (c : CommandContext)
  : bool :=
  hasStatusDirective d
  || String.eqb (commandBodyNormalized c) "/status"
  || Js.startsWith (commandBodyNormalized c) "/status ".

Definition compactRequested (c : CommandContext) : bool :=
  String.eqb (commandBodyNormalized c) "/compact"
  || Js.startsWith (commandBodyNormalized c) "/compact ".

Definition abortRequested (c : CommandContext) : bool :=
  isAbortTrigger (Some (rawBodyNormalized c)).

Definition activationSenderE164 (c : CommandContext) : string :=
  if Js.truthy (senderE164 c)
  then normalizeE164 (default "" (senderE164 c)) else "".

Definition isActivationOwner (c : CommandContext) : bool :=
  if negb (isWhatsAppSurface c) || (length (ownerList c) =? 0)%nat
  then isAuthorizedSender c
  else Js.truthy (Some (activationSenderE164 c))
       && Js.includes (ownerList c) (activationSenderE164 c).

End Commands.

Section Handler.
Context `{Collaborators}.
Local Open Scope cmd_scope.

(** [if (activationCommand.hasCommand) { ... }] *)
Definition activationBranch (p : Params) : M DispatchResult :=
  let command := command p in
  if negb (isGroup p) then
    ret (replyText "⚙️ Group activation only applies to group chats.")
  else if negb (isAuthorizedSender command)
          || (isWhatsAppSurface command && negb (isActivationOwner command))
  then
    logVerbose ("Ignoring /activation from unauthorized sender in group: "
                +:+ senderLabel command);;;
    ret silentDrop
  else
    match mode (activationCommand command) with
    | None => ret (replyText "⚙️ Usage: /activation mention|always")
    | Some m =>
        match sessionTarget p with
        | Some (e, s, key) =>
            updateEntry e (set_groupActivation (Some m));;;
            updateEntry e (set_groupActivationNeedsSystemIntro (Some true));;;
            touchAndSave p e s key
        | None => ret tt
        end;;;
        ret (replyText ("⚙️ Group activation set to " +:+ modeText m +:+ "."))
    end.

(** [if (sendPolicyCommand.hasCommand) { ... }] *)
Definition sendPolicyBranch (p : Params) : M DispatchResult :=
  let command := command p in
  if negb (isAuthorizedSender command) then
    logVerbose ("Ignoring /send from unauthorized sender: "
                +:+ senderLabel command);;;
    ret silentDrop
  else
    match SendPolicy.mode (sendPolicyCommand command) with
    | None => ret (replyText "⚙️ Usage: /send on|off|inherit")
    | Some m =>
        match sessionTarget p with
        | Some (e, s, key) =>
            match m with
            | inherit => updateEntry e (set_sendPolicy None)
            | _ => updateEntry e (set_sendPolicy (Some m))
            end;;;
            touchAndSave p e s key
        | None => ret tt
        end;;;
        let label :=
          match m with
          | inherit => "inherit"
          | allow => "on"
          | deny => "off"
          end in
        ret (replyText ("⚙️ Send policy set to " +:+ label +:+ "."))
    end.

(** [if (commandBodyNormalized === "/restart" || ...) { ... }] *)
Definition restartBranch (p : Params) : M DispatchResult :=
  let command := command p in
  if negb (isAuthorizedSender command) then
    logVerbose ("Ignoring /restart from unauthorized sender: "
                +:+ senderLabel command);;;
    ret silentDrop
  else
    let* restartMethod := triggerClawdbotRestart in
    ret (replyText ("⚙️ Restarting clawdbot via " +:+ restartMethod
                    +:+ "; give me a few seconds to come back online.")).

(** [if (helpRequested) { ... }] *)
Definition helpBranch (p : Params) : M DispatchResult :=
  let command := command p in
  if negb (isAuthorizedSender command) then
    logVerbose ("Ignoring /help from unauthorized sender: "
                +:+ senderLabel command);;;
    ret silentDrop
  else ret (replyText buildHelpMessage).

(** [if (statusRequested) { ... }] *)
Definition statusBranch (p : Params) : M DispatchResult :=
  let command := command p in
  if negb (isAuthorizedSender command) then
    logVerbose ("Ignoring /status from unauthorized sender: "
                +:+ senderLabel command);;;
    ret silentDrop
  else
    let webLinked := webAuthExists in
    let webAuthAgeMs := getWebAuthAgeMs in
    let heartbeatSeconds := resolveHeartbeatSeconds (cfg p) in
    let* entry := readEntry (sessionEntry p) in
    let groupActivation :=
      if isGroup p then
        match normalizeGroupActivation
                (option_map modeText (entry ≫= groupActivation)) with
        | Some m => Some m
        | None => Some (defaultGroupActivation p)
        end
      else None in
    let* resolvedThink := thinkLevelOrDefault p in
    let statusText :=
      buildStatusMessage
        {| sa_config := cfg p;
           sa_model := model p;
           sa_contextTokens := params_contextTokens p;
           sa_workspaceDir := workspaceDir p;
           sa_sessionEntry := entry;
           sa_sessionKey := sessionKey p;
           sa_sessionScope := sessionScope p;
           sa_storePath := storePath p;
           sa_groupActivation := groupActivation;
           sa_resolvedThink := resolvedThink;
           sa_resolvedVerbose := resolvedVerboseLevel p;
           sa_resolvedElevated := resolvedElevatedLevel p;
           sa_modelAuth := resolveModelAuthLabel (Some (provider p)) (cfg p);
           sa_webLinked := webLinked;
           sa_webAuthAgeMs := webAuthAgeMs;
           sa_heartbeatSeconds := heartbeatSeconds |} in
    ret (replyText statusText).

(** The label and line of the compaction reply. *)
Definition compactLabel (result : CompactResult) : string :=
  if cr_ok result then
    if cr_compacted result then
      match cr_tokensBefore result with
      | Some n =>
          if (n =? 0)%Z then "Compacted"
          else "Compacted (" +:+ formatTokenCount n +:+ " before)"
      | None => "Compacted"
      end
    else "Compaction skipped"
  else "Compaction failed".

Definition compactLine (result : CompactResult) (contextSummary : string)
  : string :=
  match option_map Js.trim (cr_reason result) with
  | Some (String _ _ as reason) =>
      compactLabel result +:+ ": " +:+ reason +:+ " • " +:+ contextSummary
  | _ => compactLabel result +:+ " • " +:+ contextSummary
  end.

(** The argument [handleCommands] passes to [compactEmbeddedPiSession]. *)
Definition compactArgs (p : Params) (sessionId : string)
           (skills : option SkillsSnapshot) (thinkLevel : option string)
  : CompactArgs :=
  {| ca_sessionId := sessionId;
     ca_sessionKey := sessionKey p;
     ca_surface := cmd_surface (command p);
     ca_sessionFile := resolveSessionTranscriptPath sessionId;
     ca_workspaceDir := workspaceDir p;
     ca_config := cfg p;
     ca_skillsSnapshot := skills;
     ca_provider := provider p;
     ca_model := model p;
     ca_thinkLevel := thinkLevel;
     ca_customInstructions :=
       extractCompactInstructions (ctxBody (ctx p)) (ctx p) (cfg p)
                                  (isGroup p);
     ca_ownerNumbers :=
       if (0 <? length (ownerList (command p)))%nat
       then Some (ownerList (command p)) else None |}.

(** [sessionEntry.totalTokens ??
     (sessionEntry.inputTokens ?? 0) + (sessionEntry.outputTokens ?? 0)] *)
Definition entryTotalTokens (e : option SessionEntry) : Z :=
  match e ≫= totalTokens with
  | Some t => t
  | None =>
      (default 0 (e ≫= inputTokens) + default 0 (e ≫= outputTokens))%Z
  end.

(** [if (compactRequested) { ... }] *)
Definition compactBranch (p : Params) : M DispatchResult :=
  let command := command p in
  if negb (isAuthorizedSender command) then
    logVerbose ("Ignoring /compact from unauthorized sender: "
                +:+ senderLabel command);;;
    ret silentDrop
  else
    let* entry := readEntry (sessionEntry p) in
    match entry ≫= sessionId with
    | Some (String _ _ as sessionId) =>
        let* active := isEmbeddedPiRunActive sessionId in
        when active
             (abortEmbeddedPiRun sessionId;;;
              let* _ := waitForEmbeddedPiRunEnd sessionId 15000 in
              ret tt);;;
        let skills := entry ≫= skillsSnapshot in
        let* thinkLevel := thinkLevelOrDefault p in
        let* result :=
          compactEmbeddedPiSession
            (compactArgs p sessionId skills thinkLevel) in
        let* entry' := readEntry (sessionEntry p) in
        let totalTokens := entryTotalTokens entry' in
        let contextSummary :=
          formatContextUsageShort
            (if (0 <? totalTokens)%Z then Some totalTokens else None)
            (Some (params_contextTokens p)) in
        when (cr_ok result && cr_compacted result)
             (incrementCompactionCount p);;;
        let line := compactLine result contextSummary in
        enqueueSystemEvent line;;;
        ret (replyText ("⚙️ " +:+ line))
    | _ =>
        ret (replyText "⚙️ Compaction unavailable (missing session id).")
    end.

(** [if (abortRequested) { ... }] *)
Definition abortBranch (p : Params) : M DispatchResult :=
  match sessionTarget p with
  | Some (e, s, key) =>
      updateEntry e (set_abortedLastRun (Some true));;;
      touchAndSave p e s key
  | None =>
      match abortKey (command p) with
      | Some (String _ _ as key) => setAbortMemory key true
      | _ => ret tt
      end
  end;;;
  ret (replyText "⚙️ Agent was aborted.").

(** The end of [handleCommands], when no command matched. *)
Definition sendPolicyGate (p : Params) : M DispatchResult :=
  let* entry := readEntry (sessionEntry p) in
  let sendPolicy :=
    resolveSendPolicy (cfg p) entry (sessionKey p)
      (default (cmd_surface (command p)) (entry ≫= surface))
      (entry ≫= chatType) in
  match sendPolicy with
  | deny =>
      logVerbose ("Send blocked by policy for session "
                  +:+ default "unknown" (sessionKey p));;;
      ret silentDrop
  | _ => ret {| reply := None; shouldContinue := true |}
  end.

Definition handleCommands (p : Params) : M DispatchResult :=
  let command := command p in
  if resetRequested command && negb (isAuthorizedSender command) then
    logVerbose ("Ignoring /reset from unauthorized sender: "
                +:+ senderLabel command);;;
    ret silentDrop
  else if hasCommand (activationCommand command) then activationBranch p
  else if SendPolicy.hasCommand (sendPolicyCommand command)
  then sendPolicyBranch p
  else if restartRequested command then restartBranch p
  else if helpRequested command then helpBranch p
  else if statusRequested (directives p) command then statusBranch p
  else if compactRequested command then compactBranch p
  else if abortRequested command then abortBranch p
  else sendPolicyGate p.

End Handler.

(** ** An instance of the collaborators

    Used to run the handler on concrete messages. *)
Module Sample.

#[export] Instance types : ExternalTypes :=
  {| ClawdbotConfig := unit; MsgContext := option string;
     SkillsSnapshot := unit |}.

Module Model.

(** Modelled from the spec: [parseSendPolicyCommand] of send-policy.ts is
    not among the sources.  The spec (6): "/send [on|off|inherit]
    (internally allow|deny|inherit)", case-insensitive and word-bounded
    like the other commands. *)
Definition parseSendPolicyCommand (raw : option string)
  : SendPolicy.Command :=
  let trimmed := Js.trim (default "" raw) in
  match Js.matchLiteral "/send" trimmed with
  | Some (m, rest) =>
      if Js.wordBoundary m rest then
        let '(_, rest') := Js.span Js.isWhiteSpace rest in
        let '(word, _) := Js.span Js.isLetter rest' in
        let word := Js.toLowerCase word in
        {| SendPolicy.hasCommand := true;
           SendPolicy.mode :=
             if String.eqb word "on" then Some allow
             else if String.eqb word "off" then Some deny
             else if String.eqb word "inherit" then Some inherit
             else None |}
      else {| SendPolicy.hasCommand := false; SendPolicy.mode := None |}
  | None => {| SendPolicy.hasCommand := false; SendPolicy.mode := None |}
  end.

(** Modelled from the spec: [isAbortTrigger] of reply/abort.ts is not
    among the sources.  The spec (6): "a separate non-slash trigger
    phrase"; here the phrases [stop] and [abort]. *)
Definition isAbortTrigger (raw : option string) : bool :=
  let t := Js.toLowerCase (Js.trim (default "" raw)) in
  String.eqb t "stop" || String.eqb t "abort".

End Model.

#[export] Instance collaborators : Collaborators :=
  {| ctxBody := fun c => c;
     ctxSurface := fun _ => Some "whatsapp";
     parseSendPolicyCommand := Model.parseSendPolicyCommand;
     normalizeE164 := fun s => s;
     isAbortTrigger := Model.isAbortTrigger;
     stripStructuralPrefixes := fun s => s;
     stripMentions := fun s _ _ => s;
     resolveCommandAuthorization := fun _ _ authorized =>
       {| auth_isWhatsAppSurface := true; auth_ownerList := [];
          auth_isAuthorizedSender := authorized;
          auth_senderE164 := None; auth_from := None; auth_to := None |};
     resolveSessionTranscriptPath := fun sid => sid +:+ ".jsonl";
     buildHelpMessage := "help";
     buildStatusMessage := fun _ => "status";
     formatContextUsageShort := fun _ _ => "context";
     formatTokenCount := fun _ => "n";
     resolveSendPolicy := fun _ _ _ _ _ => allow;
     ensureAuthProfileStore := {| profiles := ∅ |};
     listProfilesForProvider := fun _ _ => [];
     resolveEnvApiKey := fun _ => None;
     getCustomProviderApiKey := fun _ _ => None;
     webAuthExists := true;
     getWebAuthAgeMs := None;
     resolveHeartbeatSeconds := fun _ => 60%Z;
     restartMethod := "launchctl";
     runEndsWithin := fun _ _ => false;
     compactionOutcome := fun _ _ =>
       {| cr_ok := true; cr_compacted := true; cr_reason := None;
          cr_tokensBefore := Some 1200%Z |} |}.

Definition commandOf (authorized : bool) (body : string) : CommandContext :=
  {| cmd_surface := "whatsapp"; isWhatsAppSurface := true;
     ownerList := ["+15550001"]; isAuthorizedSender := authorized;
     senderE164 := Some "+15550001"; abortKey := Some "main";
     rawBodyNormalized := body; commandBodyNormalized := body;
     from := Some "+15550001"; to := Some "+15550002" |}.

(** A dispatch of the message [body]. *)
Definition dispatch (authorized group : bool) (body : string)
           (sessionEntry sessionStore : option loc)
           (sessionKey storePath : option string) : Params :=
  {| ctx := Some body; cfg := tt; command := commandOf authorized body;
     directives := {| hasStatusDirective := false |};
     sessionEntry := sessionEntry; sessionStore := sessionStore;
     sessionKey := sessionKey; storePath := storePath;
     sessionScope := None; workspaceDir := "/work";
     defaultGroupActivation := mention;
     resolvedThinkLevel := Some "low"; resolvedVerboseLevel := "off";
     resolvedElevatedLevel := None; resolveDefaultThinkingLevel := None;
     provider := "anthropic"; model := "m";
     params_contextTokens := 200000%Z; isGroup := group |}.

(** A dispatch with the entry [1] of the store [2] under the key [main]. *)
Definition paramsOf (authorized group : bool) (body : string)
           (storePath : option string) : Params :=
  dispatch authorized group body (Some 1%positive) (Some 2%positive)
           (Some "main") storePath.

Definition entry0 : SessionEntry :=
  {| sessionId := Some "sid-1"; groupActivation := None;
     groupActivationNeedsSystemIntro := None;
     sendPolicy := Some deny; abortedLastRun := None;
     compactionCount := None; inputTokens := None; outputTokens := None;
     totalTokens := Some 5000%Z; contextTokens := None; updatedAt := 10%Z;
     chatType := None; surface := None; skillsSnapshot := None |}.

Definition world0 : World :=
  {| entries := {[ 1%positive := entry0 ]};
     stores := {[ 2%positive := {[ "main" := 1%positive ]} ]};
     disk := ∅; abortMemory := ∅; activeRuns := {[ "sid-1" ]};
     clock := 100%Z; trace := [] |}.


(** The world with no run in progress. *)
Definition idleWorld : World :=
  {| entries := {[ 1%positive := entry0 ]};
     stores := {[ 2%positive := {[ "main" := 1%positive ]} ]};
     disk := ∅; abortMemory := ∅; activeRuns := ∅;
     clock := 100%Z; trace := [] |}.

(** A dispatch whose command context is made by [buildCommandContext]. *)
Definition builtDispatch (authorized group : bool) (body : string)
           (sessionEntry sessionStore : option loc)
           (sessionKey storePath : option string) : Params :=
  {| ctx := Some body; cfg := tt;
     command := buildCommandContext (Some body) tt sessionKey group body
                                    authorized;
     directives := {| hasStatusDirective := false |};
     sessionEntry := sessionEntry; sessionStore := sessionStore;
     sessionKey := sessionKey; storePath := storePath;
     sessionScope := None; workspaceDir := "/work";
     defaultGroupActivation := mention;
     resolvedThinkLevel := Some "low"; resolvedVerboseLevel := "off";
     resolvedElevatedLevel := None; resolveDefaultThinkingLevel := None;
     provider := "anthropic"; model := "m";
     params_contextTokens := 200000%Z; isGroup := group |}.

End Sample.

(** * Properties *)

(** ** Vocabulary of the statements *)

(** The command a message is dispatched as. *)
Inductive Command :=
| CmdReset | CmdActivation | CmdSendPolicy | CmdRestart | CmdHelp
| CmdStatus | CmdCompact | CmdAbort | CmdNone.

Section Vocabulary.
Context `{Collaborators}.

(** The first trigger that fires, in the order [handleCommands] tests the
    triggers: Reset/New, Activation, SendPolicy, Restart, Help, Status,
    Compact, Abort.  [handleCommands] runs the branch of that command; of a
    Reset/New it only drops the one of a sender that is not authorized (the
    reset itself is the caller's), and otherwise goes on to the later
    tests. *)
Definition classify (p : Params) : Command :=
  let c := command p in
  if resetRequested c then CmdReset
  else if hasCommand (activationCommand c) then CmdActivation
  else if SendPolicy.hasCommand (sendPolicyCommand c) then CmdSendPolicy
  else if restartRequested c then CmdRestart
  else if helpRequested c then CmdHelp
  else if statusRequested (directives p) c then CmdStatus
  else if compactRequested c then CmdCompact
  else if abortRequested c then CmdAbort
  else CmdNone.

(** The commands that need an authorized sender. *)
Definition privileged (cmd : Command) : bool :=
  match cmd with
  | CmdReset | CmdActivation | CmdSendPolicy | CmdRestart | CmdHelp
  | CmdStatus | CmdCompact => true
  | CmdAbort | CmdNone => false
  end.

(** The test [handleCommands] makes before it ignores an /activation. *)
Definition activationDenied (c : CommandContext) : bool :=
  negb (isAuthorizedSender c)
  || (isWhatsAppSurface c && negb (isActivationOwner c)).

(** The world after the entry object [e] was changed by [f], stamped with
    the time and put in the store [s] under [key]. *)
Definition mutated (e s : loc) (key : string)
           (f : SessionEntry -> SessionEntry) (w : World) : World :=
  with_stores (alter (insert key e) s (stores w))
    (with_entries
       (alter (fun x => set_updatedAt (clock w) (f x)) e (entries w)) w).

(** The world after [saveSessionStore path s]. *)
Definition persisted (path : string) (s : loc) (w : World) : World :=
  emit (EvSaveSessionStore path (snapshot w s))
       (with_disk (<[path := snapshot w s]> (disk w)) w).

(** The change, followed by the write when there is a store path. *)
Definition committed (p : Params) (e s : loc) (key : string)
           (f : SessionEntry -> SessionEntry) (w : World) : World :=
  match storePath p with
  | Some (String _ _ as path) => persisted path s (mutated e s key f w)
  | _ => mutated e s key f w
  end.

Definition sendPolicyLabel (m : SendPolicyMode) : string :=
  match m with
  | inherit => "inherit"
  | allow => "on"
  | deny => "off"
  end.

(** The field [sendPolicy] after /send: absent for [inherit]. *)
Definition sendPolicyField (m : SendPolicyMode) : option SendPolicyMode :=
  match m with
  | inherit => None
  | allow => Some allow
  | deny => Some deny
  end.

Definition activationChange (m : GroupActivationMode) (x : SessionEntry)
  : SessionEntry :=
  set_groupActivationNeedsSystemIntro (Some true)
    (set_groupActivation (Some m) x).

Definition abortReply : string := "⚙️ Agent was aborted.".

(** [Confirms p t f]: the message of [p] is a command that is carried out
    and confirmed with the text [t], and whose change of the session entry
    is [f]: an /activation with a mode, in a group, that is not denied; a
    /send with a mode from an authorized sender; an abort trigger. *)
Inductive Confirms (p : Params)
  : string -> (SessionEntry -> SessionEntry) -> Prop :=
| confirms_activation (m : GroupActivationMode) :
    classify p = CmdActivation ->
    isGroup p = true ->
    activationDenied (command p) = false ->
    mode (activationCommand (command p)) = Some m ->
    Confirms p ("⚙️ Group activation set to " +:+ modeText m +:+ ".")
             (activationChange m)
| confirms_sendPolicy (m : SendPolicyMode) :
    classify p = CmdSendPolicy ->
    isAuthorizedSender (command p) = true ->
    SendPolicy.mode (sendPolicyCommand (command p)) = Some m ->
    Confirms p ("⚙️ Send policy set to " +:+ sendPolicyLabel m +:+ ".")
             (set_sendPolicy (sendPolicyField m))
| confirms_abort :
    classify p = CmdAbort ->
    Confirms p abortReply (set_abortedLastRun (Some true)).

(** The world after an abort trigger when the guard
    [sessionEntry && sessionStore && sessionKey] fails. *)
Definition abortRemembered (p : Params) (w : World) : World :=
  match abortKey (command p) with
  | Some (String _ _ as key) =>
      with_abortMemory (<[key := true]> (abortMemory w)) w
  | _ => w
  end.


(** Every character of [s] satisfies [f]. *)
Fixpoint allChars (f : ascii -> bool) (s : string) : bool :=
  match s with
  | EmptyString => true
  | String c r => f c && allChars f r
  end.

(** [s] does not start with a white space. *)
Definition startsClean (s : string) : bool :=
  match s with
  | EmptyString => true
  | String c _ => negb (Js.isWhiteSpace c)
  end.

(** The branch [handleCommands] runs: as [classify], except that the
    Reset/New of an authorized sender is passed over. *)
Definition handled (p : Params) : Command :=
  let c := command p in
  if resetRequested c && negb (isAuthorizedSender c) then CmdReset
  else if hasCommand (activationCommand c) then CmdActivation
  else if SendPolicy.hasCommand (sendPolicyCommand c) then CmdSendPolicy
  else if restartRequested c then CmdRestart
  else if helpRequested c then CmdHelp
  else if statusRequested (directives p) c then CmdStatus
  else if compactRequested c then CmdCompact
  else if abortRequested c then CmdAbort
  else CmdNone.

Definition isLogEvent (e : Event) : bool :=
  match e with
  | EvLogVerbose _ => true
  | _ => false
  end.

(** The condition [(?:^|\s)] on the text before a match: the start of the
    text, or a white space. *)
Definition tokenStart (pre : string) : bool :=
  match Js.last pre with
  | None => true
  | Some c => Js.isWhiteSpace c
  end.

(** The two worlds differ at most in their traces. *)
Definition sameState (w w' : World) : Prop :=
  entries w' = entries w /\ stores w' = stores w /\ disk w' = disk w
  /\ abortMemory w' = abortMemory w /\ activeRuns w' = activeRuns w
  /\ clock w' = clock w.

(** [w'] differs from [w] at most in the entry object, the store object and
    key, the store file and the abort-memory key that [p] names, and in the
    trace. *)
Definition withinFrame (p : Params) (w w' : World) : Prop :=
  (forall l, sessionEntry p <> Some l -> entries w' !! l = entries w !! l)
  /\ (forall sl, sessionStore p <> Some sl -> stores w' !! sl = stores w !! sl)
  /\ (forall sl k, sessionKey p <> Some k ->
                   (stores w' !! sl) ≫= (fun m : gmap string loc => m !! k)
                   = (stores w !! sl) ≫= (fun m : gmap string loc => m !! k))
  /\ (forall path, storePath p <> Some path ->
                   disk w' !! path = disk w !! path)
  /\ (forall k, abortKey (command p) <> Some k ->
                abortMemory w' !! k = abortMemory w !! k)
  /\ activeRuns w' = activeRuns w
  /\ clock w' = clock w.

End Vocabulary.

(** ** The dispatch *)

Section Classification.
Context `{Collaborators}.

(** A body that starts with [/activation] is neither [/reset] nor [/new]. *)
Lemma activation_not_reset (c : CommandContext) :
  hasCommand (activationCommand c) = true -> resetRequested c = false.
Proof.
  unfold activationCommand, resetRequested.
  destruct (String.eqb (commandBodyNormalized c) "/reset") eqn:E1.
  - apply String.eqb_eq in E1. rewrite E1. intros A. vm_compute in A.
    discriminate A.
  - destruct (String.eqb (commandBodyNormalized c) "/new") eqn:E2;
      [| reflexivity].
    apply String.eqb_eq in E2. rewrite E2. intros A. vm_compute in A.
    discriminate A.
Qed.

End Classification.

(** From [classify p = cmd], the value of every trigger tested up to [cmd]. *)
Ltac triggers_of C :=
  unfold classify in C; cbv zeta in C;
  repeat match type of C with
         | (if ?b then _ else _) = _ =>
             let E := fresh "T" in
             destruct b eqn:E; try discriminate C
         end.

(** Run [handleCommands] down to the branch the known triggers select. *)
Ltac to_branch :=
  unfold handleCommands; cbv zeta;
  repeat match goal with
         | E : ?b = _ |- context [ ?b ] => rewrite E
         end;
  cbn [andb orb negb].

Section Dispatch.
Context `{Collaborators}.

Lemma dispatch_activation p :
  classify p = CmdActivation -> handleCommands p = activationBranch p.
Proof. intros C. triggers_of C. to_branch. reflexivity. Qed.

Lemma dispatch_sendPolicy p :
  classify p = CmdSendPolicy -> handleCommands p = sendPolicyBranch p.
Proof. intros C. triggers_of C. to_branch. reflexivity. Qed.

Lemma dispatch_restart p :
  classify p = CmdRestart -> handleCommands p = restartBranch p.
Proof. intros C. triggers_of C. to_branch. reflexivity. Qed.

Lemma dispatch_help p :
  classify p = CmdHelp -> handleCommands p = helpBranch p.
Proof. intros C. triggers_of C. to_branch. reflexivity. Qed.

Lemma dispatch_status p :
  classify p = CmdStatus -> handleCommands p = statusBranch p.
Proof. intros C. triggers_of C. to_branch. reflexivity. Qed.

Lemma dispatch_compact p :
  classify p = CmdCompact -> handleCommands p = compactBranch p.
Proof. intros C. triggers_of C. to_branch. reflexivity. Qed.

Lemma dispatch_abort p :
  classify p = CmdAbort -> handleCommands p = abortBranch p.
Proof. intros C. triggers_of C. to_branch. reflexivity. Qed.

Lemma dispatch_none p :
  classify p = CmdNone -> handleCommands p = sendPolicyGate p.
Proof. intros C. triggers_of C. to_branch. reflexivity. Qed.

End Dispatch.

(** ** Facts about the primitives *)

Section Basics.
Context `{Collaborators}.

Lemma truthy_Some (s : string) : Js.truthy (Some s) = true <-> s <> "".
Proof. destruct s; simpl; split; congruence. Qed.

Lemma includes_In (xs : list string) (x : string) :
  Js.includes xs x = true <-> In x xs.
Proof.
  unfold Js.includes. rewrite existsb_exists. split.
  - intros (y & Hy & E). apply String.eqb_eq in E. now subst.
  - intros Hx. exists x. split; [assumption | apply String.eqb_refl].
Qed.


Lemma log_then_drop (message : string) (w : World) :
  bind (logVerbose message) (fun _ => ret silentDrop) w
  = (silentDrop, emit (EvLogVerbose message) w).
Proof. reflexivity. Qed.

End Basics.

(** ** Authorization *)

Section Authorization.
Context `{Collaborators}.

(** C1. A privileged command (/reset, /new, /send, /restart, /help,
    /status, /compact, and /activation in a group) from a sender that is
    not authorized gets no reply and [shouldContinue = false]; the only
    effect of the dispatch is one line of the verbose log. *)
Theorem unauthorized_privileged_silent (p : Params) (w : World) :
  isAuthorizedSender (command p) = false ->
  privileged (classify p) = true ->
  (classify p = CmdActivation -> isGroup p = true) ->
  exists message,
    handleCommands p w = (silentDrop, emit (EvLogVerbose message) w).
Proof.
  intros U P G. destruct (classify p) eqn:C; try discriminate P.
  - triggers_of C. to_branch. eexists. apply log_then_drop.
  - rewrite (dispatch_activation p C). unfold activationBranch. cbv zeta.
    rewrite (G eq_refl), U. cbn [negb orb]. eexists. apply log_then_drop.
  - rewrite (dispatch_sendPolicy p C). unfold sendPolicyBranch. cbv zeta.
    rewrite U. cbn [negb]. eexists. apply log_then_drop.
  - rewrite (dispatch_restart p C). unfold restartBranch. cbv zeta.
    rewrite U. cbn [negb]. eexists. apply log_then_drop.
  - rewrite (dispatch_help p C). unfold helpBranch. cbv zeta.
    rewrite U. cbn [negb]. eexists. apply log_then_drop.
  - rewrite (dispatch_status p C). unfold statusBranch. cbv zeta.
    rewrite U. cbn [negb]. eexists. apply log_then_drop.
  - rewrite (dispatch_compact p C). unfold compactBranch. cbv zeta.
    rewrite U. cbn [negb]. eexists. apply log_then_drop.
Qed.



(** C4. /activation outside a group is answered with the "only applies to
    group chats" text and [shouldContinue = false], whoever the sender is;
    the world is left as it was (no entry changed, nothing written, nothing
    logged), since the reply comes before the authorization test. *)
Theorem activation_outside_group (p : Params) (w : World) :
  hasCommand (activationCommand (command p)) = true ->
  isGroup p = false ->
  handleCommands p w
  = (replyText "⚙️ Group activation only applies to group chats.", w).
Proof.
  intros A G. pose proof (activation_not_reset _ A) as R.
  to_branch. unfold activationBranch. cbv zeta. rewrite G. reflexivity.
Qed.

End Authorization.

(** ** Changes of the session state *)

Section SessionState.
Context `{Collaborators}.

Lemma update_then_touch (p : Params) (e s : loc) (key : string)
      (f : SessionEntry -> SessionEntry) (w : World) :
  bind (updateEntry e f) (fun _ => touchAndSave p e s key) w
  = (tt, committed p e s key f w).
Proof.
  unfold committed, persisted, mutated, touchAndSave, bind, updateEntry,
    storeSet, dateNow, saveSessionStore, modify, ret.
  cbn [entries stores disk clock with_entries with_stores].
  rewrite alter_alter_eq.
  destruct (storePath p) as [[| c path] |]; reflexivity.
Qed.

Lemma update_twice_then_touch (p : Params) (e s : loc) (key : string)
      (f g : SessionEntry -> SessionEntry) (w : World) :
  bind (updateEntry e f)
       (fun _ => bind (updateEntry e g)
                      (fun _ => touchAndSave p e s key)) w
  = (tt, committed p e s key (fun x => g (f x)) w).
Proof.
  unfold committed, persisted, mutated, touchAndSave, bind, updateEntry,
    storeSet, dateNow, saveSessionStore, modify, ret.
  cbn [entries stores disk clock with_entries with_stores].
  rewrite !alter_alter_eq.
  destruct (storePath p) as [[| c path] |]; reflexivity.
Qed.

(** The guard fails when one of the three is missing, and only then. *)
Lemma sessionTarget_None (p : Params) :
  sessionTarget p = None <->
  sessionEntry p = None \/ sessionStore p = None
  \/ Js.truthy (sessionKey p) = false.
Proof.
  unfold sessionTarget.
  destruct (sessionEntry p), (sessionStore p), (sessionKey p) as [[|] |];
    cbn; intuition congruence.
Qed.

Lemma sessionTarget_Some (p : Params) e s key :
  sessionTarget p = Some (e, s, key) ->
  sessionEntry p = Some e /\ sessionStore p = Some s
  /\ sessionKey p = Some key /\ key <> "".
Proof.
  unfold sessionTarget.
  destruct (sessionEntry p), (sessionStore p), (sessionKey p) as [[|] |];
    cbn; intros E; inversion E; subst; repeat split; congruence.
Qed.

(** *** What the committed world holds *)

Lemma committed_entries p e s key f w :
  entries (committed p e s key f w)
  = alter (fun x => set_updatedAt (clock w) (f x)) e (entries w).
Proof.
  unfold committed. destruct (storePath p) as [[| c path] |]; reflexivity.
Qed.

Lemma committed_stores p e s key f w :
  stores (committed p e s key f w) = alter (insert key e) s (stores w).
Proof.
  unfold committed. destruct (storePath p) as [[| c path] |]; reflexivity.
Qed.

Lemma committed_abortMemory p e s key f w :
  abortMemory (committed p e s key f w) = abortMemory w.
Proof.
  unfold committed. destruct (storePath p) as [[| c path] |]; reflexivity.
Qed.

Lemma committed_clock p e s key f w :
  clock (committed p e s key f w) = clock w.
Proof.
  unfold committed. destruct (storePath p) as [[| c path] |]; reflexivity.
Qed.

Lemma committed_snapshot p e s key f w :
  snapshot (committed p e s key f w) s = snapshot (mutated e s key f w) s.
Proof.
  unfold committed. destruct (storePath p) as [[| c path] |]; reflexivity.
Qed.

(** With a store path the store is written, once, after the change;
    without one nothing is written. *)
Lemma committed_disk p e s key f w :
  let w' := committed p e s key f w in
  match storePath p with
  | Some (String _ _ as path) =>
      disk w' = <[path := snapshot w' s]> (disk w)
      /\ trace w' = (trace w ++ [EvSaveSessionStore path (snapshot w' s)])%list
  | _ => disk w' = disk w /\ trace w' = trace w
  end.
Proof.
  cbv zeta. rewrite committed_snapshot. unfold committed.
  destruct (storePath p) as [[| c path] |]; split; reflexivity.
Qed.

Lemma committed_lookup p e s key f w x :
  entries w !! e = Some x ->
  entries (committed p e s key f w) !! e
  = Some (set_updatedAt (clock w) (f x)).
Proof.
  intros L. rewrite committed_entries, lookup_alter_eq, L. reflexivity.
Qed.

Lemma committed_store_lookup p e s key f w (smap : gmap string loc) :
  stores w !! s = Some smap ->
  stores (committed p e s key f w) !! s = Some (<[key := e]> smap).
Proof.
  intros L. rewrite committed_stores, lookup_alter_eq, L. reflexivity.
Qed.

(** The written store holds the changed entry under the key. *)
Lemma committed_snapshot_lookup p e s key f w x (smap : gmap string loc) :
  entries w !! e = Some x -> stores w !! s = Some smap ->
  snapshot (committed p e s key f w) s !! key
  = Some (set_updatedAt (clock w) (f x)).
Proof.
  intros Le Ls. unfold snapshot.
  rewrite (committed_store_lookup p e s key f w smap Ls). cbn [default].
  unfold id. rewrite lookup_omap, lookup_insert_eq. cbn.
  apply committed_lookup. exact Le.
Qed.

End SessionState.

(** ** The commands that change the session *)

Section Mutations.
Context `{Collaborators}.

Lemma bind_unit_ret {B} (m : M unit) (r : B) (w w' : World) :
  m w = (tt, w') -> bind m (fun _ => ret r) w = (r, w').
Proof. intros E. unfold bind, ret. rewrite E. reflexivity. Qed.

(** What a confirmed command does: with the entry, the store and the key
    it commits its change; without, only an abort trigger leaves a mark, in
    the abort memory. *)
Lemma confirmed_dispatch (p : Params) (w : World) t f :
  Confirms p t f ->
  handleCommands p w
  = (replyText t,
     match sessionTarget p with
     | Some (e, s, key) => committed p e s key f w
     | None =>
         match classify p with
         | CmdAbort => abortRemembered p w
         | _ => w
         end
     end).
Proof.
  intros [m C G D Mo | m C A Mo | C]; rewrite C.
  - rewrite (dispatch_activation p C). unfold activationBranch. cbv zeta.
    unfold activationDenied in D. rewrite G, D, Mo. cbn [negb].
    apply bind_unit_ret.
    destruct (sessionTarget p) as [[[e s] key] |]; [| reflexivity].
    rewrite update_twice_then_touch. reflexivity.
  - rewrite (dispatch_sendPolicy p C). unfold sendPolicyBranch. cbv zeta.
    rewrite A, Mo. cbn [negb].
    destruct m; apply bind_unit_ret;
      (destruct (sessionTarget p) as [[[e s] key] |]; [| reflexivity]);
      apply update_then_touch.
  - rewrite (dispatch_abort p C). unfold abortBranch.
    apply bind_unit_ret.
    destruct (sessionTarget p) as [[[e s] key] |].
    + apply update_then_touch.
    + unfold abortRemembered.
      destruct (abortKey (command p)) as [[| c k] |]; reflexivity.
Qed.

End Mutations.

Section SessionTheorems.
Context `{Collaborators}.

(** C5, as amended.  An authorized /send with a mode, with the session
    entry, store and key present: [inherit] removes the field [sendPolicy]
    from the entry, [allow] and [deny] set it; [updatedAt] becomes the
    current time; the entry is put in the store under the key; the reply
    names the label (inherit, on, off).  The store is written to disk, with
    the changed entry in it, when there is a store path; with no store path
    nothing is written. *)
Theorem send_policy_update (p : Params) (w : World) (m : SendPolicyMode)
        (e s : loc) (key : string) (x : SessionEntry)
        (smap : gmap string loc) :
  classify p = CmdSendPolicy ->
  isAuthorizedSender (command p) = true ->
  SendPolicy.mode (sendPolicyCommand (command p)) = Some m ->
  sessionTarget p = Some (e, s, key) ->
  entries w !! e = Some x ->
  stores w !! s = Some smap ->
  let r := handleCommands p w in
  let x' := set_updatedAt (clock w) (set_sendPolicy (sendPolicyField m) x) in
  fst r = replyText ("⚙️ Send policy set to " +:+ sendPolicyLabel m +:+ ".")
  /\ entries (snd r) !! e = Some x'
  /\ sendPolicy x' = match m with
                     | inherit => None
                     | allow => Some allow
                     | deny => Some deny
                     end
  /\ updatedAt x' = clock w
  /\ stores (snd r) !! s = Some (<[key := e]> smap)
  /\ match storePath p with
     | Some (String _ _ as path) =>
         disk (snd r) = <[path := snapshot (snd r) s]> (disk w)
         /\ snapshot (snd r) s !! key = Some x'
         /\ trace (snd r)
            = (trace w ++ [EvSaveSessionStore path (snapshot (snd r) s)])%list
     | _ => disk (snd r) = disk w /\ trace (snd r) = trace w
     end.
Proof.
  intros C A Mo T Le Ls r x'. subst r.
  rewrite (confirmed_dispatch p w _ _ (confirms_sendPolicy p m C A Mo)), T.
  cbn [fst snd].
  split; [reflexivity |].
  split; [apply committed_lookup; exact Le |].
  split; [destruct m; reflexivity |].
  split; [reflexivity |].
  split; [eapply committed_store_lookup; exact Ls |].
  pose proof (committed_disk p e s key (set_sendPolicy (sendPolicyField m)) w)
    as D.
  pose proof (committed_snapshot_lookup p e s key
                (set_sendPolicy (sendPolicyField m)) w x smap Le Ls) as S.
  cbv zeta in D.
  destruct (storePath p) as [[| c path] |]; try exact D.
  destruct D as [D1 D2]. repeat split; assumption.
Qed.

(** C10. A confirmed /activation with a mode, a confirmed /send with a
    mode, or an abort trigger with no abort key: when the session entry,
    the session store or the session key is missing, the confirmation is
    returned and the world is left as it was (no entry changed, nothing
    written).  When the three are present and the store path is missing,
    the confirmation is returned, the entry object is changed, and nothing
    is written to disk. *)
Theorem confirmation_without_persistence (p : Params) (w : World)
        (t : string) (f : SessionEntry -> SessionEntry) :
  Confirms p t f ->
  (sessionEntry p = None \/ sessionStore p = None
   \/ Js.truthy (sessionKey p) = false ->
   (classify p = CmdAbort -> Js.truthy (abortKey (command p)) = false) ->
   handleCommands p w = (replyText t, w))
  /\ (forall e s key x,
         sessionTarget p = Some (e, s, key) ->
         Js.truthy (storePath p) = false ->
         entries w !! e = Some x ->
         let r := handleCommands p w in
         fst r = replyText t
         /\ entries (snd r) !! e = Some (set_updatedAt (clock w) (f x))
         /\ disk (snd r) = disk w
         /\ trace (snd r) = trace w).
Proof.
  intros Cf. split.
  - intros Missing NoKey. apply sessionTarget_None in Missing.
    rewrite (confirmed_dispatch p w t f Cf), Missing.
    destruct (classify p) eqn:C; try reflexivity.
    specialize (NoKey eq_refl). unfold abortRemembered.
    destruct (abortKey (command p)) as [[| c k] |];
      [reflexivity | discriminate NoKey | reflexivity].
  - intros e s key x T NoPath Le r. subst r.
    rewrite (confirmed_dispatch p w t f Cf), T. cbn [fst snd].
    split; [reflexivity |].
    split; [apply committed_lookup; exact Le |].
    pose proof (committed_disk p e s key f w) as D. cbv zeta in D.
    destruct (storePath p) as [[| c path] |];
      [exact D | discriminate NoPath | exact D].
Qed.

(** The abort trigger sets the same fields whatever the entry was. *)
Lemma abort_stamp_absorbs (t t' : Z) (x : SessionEntry) :
  set_updatedAt t (set_abortedLastRun (Some true)
    (set_updatedAt t' (set_abortedLastRun (Some true) x)))
  = set_updatedAt t (set_abortedLastRun (Some true) x).
Proof. reflexivity. Qed.

(** C7, as amended.  The abort trigger is not gated by authorization: for
    every sender, a message dispatched as an abort is answered with
    "Agent was aborted." and [shouldContinue = false].  With the session
    entry, store and key present it sets [abortedLastRun = true] and
    [updatedAt] on the entry, puts the entry in the store under the key,
    and writes the store when there is a store path; otherwise it writes
    [true] to the abort memory under the abort key when there is one, and
    changes nothing when there is none.  A second trigger, at any time [t],
    gets the same reply and leaves the entries, the stores, the disk and
    the abort memory as a single trigger at time [t] leaves them. *)
Theorem abort_trigger (p : Params) (w : World) :
  classify p = CmdAbort ->
  let r := handleCommands p w in
  fst r = replyText "⚙️ Agent was aborted."
  /\ match sessionTarget p with
     | Some (e, s, key) =>
         entries (snd r)
         = alter (fun x => set_updatedAt (clock w)
                             (set_abortedLastRun (Some true) x))
                 e (entries w)
         /\ stores (snd r) = alter (insert key e) s (stores w)
         /\ abortMemory (snd r) = abortMemory w
         /\ match storePath p with
            | Some (String _ _ as path) =>
                disk (snd r) = <[path := snapshot (snd r) s]> (disk w)
                /\ trace (snd r)
                   = (trace w
                      ++ [EvSaveSessionStore path (snapshot (snd r) s)])%list
            | _ => disk (snd r) = disk w /\ trace (snd r) = trace w
            end
     | None =>
         entries (snd r) = entries w
         /\ stores (snd r) = stores w
         /\ disk (snd r) = disk w
         /\ trace (snd r) = trace w
         /\ abortMemory (snd r)
            = match abortKey (command p) with
              | Some (String _ _ as key) => <[key := true]> (abortMemory w)
              | _ => abortMemory w
              end
     end
  /\ forall t : Z,
      let once := handleCommands p (with_clock t w) in
      let twice := handleCommands p (with_clock t (snd r)) in
      fst twice = fst r
      /\ entries (snd twice) = entries (snd once)
      /\ stores (snd twice) = stores (snd once)
      /\ disk (snd twice) = disk (snd once)
      /\ abortMemory (snd twice) = abortMemory (snd once).
Proof.
  intros C r. subst r.
  pose proof (confirms_abort p C) as Cf.
  rewrite (confirmed_dispatch p w _ _ Cf).
  split; [reflexivity |]. split.
  - rewrite C. cbn [snd].
    destruct (sessionTarget p) as [[[e s] key] |].
    + split; [apply committed_entries |].
      split; [apply committed_stores |].
      split; [apply committed_abortMemory |].
      apply committed_disk.
    + unfold abortRemembered.
      destruct (abortKey (command p)) as [[| c k] |];
        repeat split; reflexivity.
  - intros t. cbv zeta.
    rewrite !(confirmed_dispatch p _ _ _ Cf). rewrite C. cbn [fst snd].
    split; [reflexivity |].
    destruct (sessionTarget p) as [[[e s] key] |].
    + assert (E : entries (committed p e s key (set_abortedLastRun (Some true))
                             (with_clock t
                                (committed p e s key
                                   (set_abortedLastRun (Some true)) w)))
                  = entries (committed p e s key
                               (set_abortedLastRun (Some true))
                               (with_clock t w))).
      { rewrite !committed_entries. cbn [entries clock with_clock].
        rewrite committed_entries, alter_alter_eq. apply alter_ext.
        intros x _. apply abort_stamp_absorbs. }
      assert (S : stores (committed p e s key (set_abortedLastRun (Some true))
                            (with_clock t
                               (committed p e s key
                                  (set_abortedLastRun (Some true)) w)))
                  = stores (committed p e s key
                              (set_abortedLastRun (Some true))
                              (with_clock t w))).
      { rewrite !committed_stores. cbn [stores with_clock].
        rewrite committed_stores, alter_alter_eq. apply alter_ext.
        intros x _. cbn. apply insert_insert_eq. }
      split; [exact E |]. split; [exact S |]. split.
      * pose proof (committed_disk p e s key (set_abortedLastRun (Some true))
                      (with_clock t
                         (committed p e s key
                            (set_abortedLastRun (Some true)) w))) as D2.
        pose proof (committed_disk p e s key (set_abortedLastRun (Some true))
                      (with_clock t w)) as D1.
        pose proof (committed_disk p e s key (set_abortedLastRun (Some true))
                      w) as D0.
        cbv zeta in D0, D1, D2. unfold snapshot in D1, D2.
        rewrite E, S in D2.
        destruct (storePath p) as [[| c path] |].
        -- destruct D1 as [D1 _], D2 as [D2 _], D0 as [D0 _].
           rewrite D1, D2. cbn [disk with_clock]. exact D0.
        -- destruct D1 as [D1 _], D2 as [D2 _], D0 as [D0 _].
           rewrite D1, D2. cbn [disk with_clock]. rewrite D0.
           apply insert_insert_eq.
        -- destruct D1 as [D1 _], D2 as [D2 _], D0 as [D0 _].
           rewrite D1, D2. cbn [disk with_clock]. exact D0.
      * rewrite !committed_abortMemory. cbn [abortMemory with_clock].
        apply committed_abortMemory.
    + unfold abortRemembered.
      destruct (abortKey (command p)) as [[| c k] |];
        repeat split; try reflexivity.
      cbn [abortMemory with_clock with_abortMemory].
      apply insert_insert_eq.
Qed.

End SessionTheorems.

Section Compaction.
Context `{Collaborators}.

(** [incrementCompactionCount] only adds to the trace. *)
Lemma increment_appends (p : Params) (w : World) :
  exists rest w',
    incrementCompactionCount p w = (tt, w')
    /\ trace w' = (trace w ++ rest)%list.
Proof.
  unfold incrementCompactionCount.
  destruct (sessionTarget p) as [[[e s] key] |].
  - rewrite update_then_touch.
    match goal with
    | |- context [ committed p e s key ?f w ] =>
        pose proof (committed_disk p e s key f w) as D; cbv zeta in D;
        exists (match storePath p with
                | Some (String _ _ as path) =>
                    [EvSaveSessionStore path
                       (snapshot (committed p e s key f w) s)]
                | _ => []
                end), (committed p e s key f w)
    end.
    split; [reflexivity |].
    destruct (storePath p) as [[| c path] |]; destruct D as [_ D];
      rewrite D, ?app_nil_r; reflexivity.
  - exists [], w. rewrite app_nil_r. split; reflexivity.
Qed.

(** What [incrementCompactionCount] adds to the trace are writes of the
    session store. *)
Lemma increment_saves (p : Params) (w : World) :
  exists saved w',
    incrementCompactionCount p w = (tt, w')
    /\ trace w' = (trace w ++ saved)%list
    /\ (forall e, In e saved ->
                  exists path snap, e = EvSaveSessionStore path snap).
Proof.
  unfold incrementCompactionCount.
  destruct (sessionTarget p) as [[[e s] key] |].
  - rewrite update_then_touch.
    match goal with
    | |- context [ committed p e s key ?f w ] =>
        pose proof (committed_disk p e s key f w) as D; cbv zeta in D;
        exists (match storePath p with
                | Some (String _ _ as path) =>
                    [EvSaveSessionStore path
                       (snapshot (committed p e s key f w) s)]
                | _ => []
                end), (committed p e s key f w)
    end.
    split; [reflexivity |].
    destruct (storePath p) as [[| c path] |]; destruct D as [_ D];
      rewrite D, ?app_nil_r; (split; [reflexivity |]); intros ev I;
      try contradiction.
    destruct I as [<- | []]. eexists _, _. reflexivity.
  - exists [], w. rewrite app_nil_r.
    split; [reflexivity |]. split; [reflexivity |]. intros ev [].
Qed.

(** C2, as amended.  An authorized /compact for an entry with a session id
    whose run is active: the handler asks whether the run is active, asks
    it to stop, waits for its end with a timeout of 15000 ms, and only then
    calls the compaction, whatever the wait returned ([ended] is [false]
    when it timed out).  What the wait returned appears nowhere in the
    answer: the reply is the gear sign and the line made from the result of
    the compaction and the context usage of the entry; after the compaction
    call the handler only writes the session store (and not at all unless
    the compaction succeeded and compacted) and enqueues that line. *)
Theorem compact_waits_for_active_run (p : Params) (w : World)
        (l : loc) (x : SessionEntry) (sid : string) :
  classify p = CmdCompact ->
  isAuthorizedSender (command p) = true ->
  sessionEntry p = Some l ->
  entries w !! l = Some x ->
  sessionId x = Some sid ->
  sid <> "" ->
  sid ∈ activeRuns w ->
  let r := handleCommands p w in
  let ended := runEndsWithin sid 15000 in
  let thinkLevel :=
    match resolvedThinkLevel p with
    | Some t => Some t
    | None => resolveDefaultThinkingLevel p
    end in
  let args := compactArgs p sid (skillsSnapshot x) thinkLevel in
  let running := if ended then activeRuns w ∖ {[sid]} else activeRuns w in
  let result := compactionOutcome args running in
  let total := entryTotalTokens (Some x) in
  let summary :=
    formatContextUsageShort (if (0 <? total)%Z then Some total else None)
                            (Some (params_contextTokens p)) in
  let line := compactLine result summary in
  fst r = replyText ("⚙️ " +:+ line)
  /\ exists saved,
       trace (snd r)
       = (trace w
          ++ [EvIsEmbeddedPiRunActive sid; EvAbortEmbeddedPiRun sid;
              EvWaitForEmbeddedPiRunEnd sid 15000 ended]
          ++ match resolvedThinkLevel p with
             | Some _ => []
             | None => [EvResolveDefaultThinkingLevel]
             end
          ++ [EvCompactEmbeddedPiSession args]
          ++ saved ++ [EvEnqueueSystemEvent line])%list
       /\ (forall e, In e saved ->
                     exists path snap, e = EvSaveSessionStore path snap)
       /\ (cr_ok result && cr_compacted result = false -> saved = []).
Proof.
  intros C A Se Le Sid Ne Act r ended thinkLevel args running result total
         summary line.
  subst r.
  rewrite (dispatch_compact p C). unfold compactBranch. cbv zeta.
  rewrite A. cbn [negb].
  destruct sid as [| c sid']; [congruence |].
  cbv beta iota zeta delta
      [bind readEntry isEmbeddedPiRunActive when abortEmbeddedPiRun
       waitForEmbeddedPiRunEnd modify ret thinkLevelOrDefault
       callResolveDefaultThinkingLevel compactEmbeddedPiSession
       enqueueSystemEvent].
  rewrite Se. cbn [mbind option_bind]. rewrite Le.
  cbn [mbind option_bind]. rewrite Sid.
  rewrite (bool_decide_eq_true_2 _ Act).
  fold ended.
  assert (Tail : forall (W : World) (b : bool) (ln : string)
                        (R : DispatchResult),
             fst (let '(_, w') :=
                    (if b then incrementCompactionCount p
                     else fun w0 => (tt, w0)) W in
                  (R, emit (EvEnqueueSystemEvent ln) w')) = R
             /\ exists saved,
                  trace (snd (let '(_, w') :=
                                (if b then incrementCompactionCount p
                                 else fun w0 => (tt, w0)) W in
                              (R, emit (EvEnqueueSystemEvent ln) w')))
                  = (trace W ++ saved ++ [EvEnqueueSystemEvent ln])%list
                  /\ (forall e, In e saved ->
                                exists path snap,
                                  e = EvSaveSessionStore path snap)
                  /\ (b = false -> saved = [])).
  { intros W b ln R. destruct b.
    - destruct (increment_saves p W) as (saved & w' & E & T & Sv).
      rewrite E. cbn [fst snd trace emit]. split; [reflexivity |].
      exists saved. rewrite T, <- app_assoc.
      split; [reflexivity |]. split; [exact Sv | discriminate].
    - cbn [fst snd trace emit]. split; [reflexivity |]. exists [].
      split; [reflexivity |]. split; [intros e [] | reflexivity]. }
  subst line summary total result running args thinkLevel.
  destruct (resolvedThinkLevel p) as [t |], ended eqn:En;
    repeat match goal with
    | |- context [ entries (emit ?e ?W) ] =>
        change (entries (emit e W)) with (entries W)
    | |- context [ entries (with_activeRuns ?v ?W) ] =>
        change (entries (with_activeRuns v W)) with (entries W)
    end;
    rewrite Le;
    match goal with
    | |- context [ (if ?b then incrementCompactionCount p else _) ?W ] =>
        match goal with
        | |- context [ emit (EvEnqueueSystemEvent ?ln) ] =>
            match goal with
            | |- context [ replyText ?R ] =>
                destruct (Tail W b ln (replyText R))
                  as (T2 & saved & T1 & Sv & Nb)
            end
        end
    end;
    cbn [trace emit with_activeRuns activeRuns] in T1 |- *;
    (split; [exact T2 |]); exists saved;
    (split; [rewrite T1; rewrite <- ?app_assoc; reflexivity |]);
    (split; [exact Sv | exact Nb]).
Qed.

(** C6. An authorized /compact when there is no session entry, or the
    entry has no session id: the reply is the "Compaction unavailable"
    text with [shouldContinue = false], and the world is left as it was: no
    question whether a run is active, no request to stop it, no wait, no
    compaction. *)
Theorem compact_without_session_id (p : Params) (w : World) :
  classify p = CmdCompact ->
  isAuthorizedSender (command p) = true ->
  (sessionEntry p = None
   \/ exists l x, sessionEntry p = Some l /\ entries w !! l = Some x
                  /\ Js.truthy (sessionId x) = false) ->
  handleCommands p w
  = (replyText "⚙️ Compaction unavailable (missing session id).", w).
Proof.
  intros C A N. rewrite (dispatch_compact p C). unfold compactBranch.
  cbv zeta. rewrite A. cbn [negb]. unfold bind at 1. unfold readEntry.
  destruct N as [N | (l & x & N & L & S)]; rewrite N; cbn [mbind option_bind].
  - reflexivity.
  - rewrite L. cbn [mbind option_bind].
    destruct (sessionId x) as [[| c sid] |];
      [reflexivity | discriminate S | reflexivity].
Qed.
End Compaction.

(** ** Case and white space *)

Section Casing.

Lemma canonicalize_lower (c : ascii) :
  Js.canonicalize (Js.toLowerCaseChar c) = Js.canonicalize c.
Proof. destruct c as [[] [] [] [] [] [] [] []]; reflexivity. Qed.

Lemma isWhiteSpace_lower (c : ascii) :
  Js.isWhiteSpace (Js.toLowerCaseChar c) = Js.isWhiteSpace c.
Proof. destruct c as [[] [] [] [] [] [] [] []]; reflexivity. Qed.

Lemma isWordChar_lower (c : ascii) :
  Js.isWordChar (Js.toLowerCaseChar c) = Js.isWordChar c.
Proof. destruct c as [[] [] [] [] [] [] [] []]; reflexivity. Qed.

Lemma lower_slash (c : ascii) :
  Js.toLowerCaseChar c = "/"%char -> c = "/"%char.
Proof.
  destruct c as [[] [] [] [] [] [] [] []]; vm_compute; intros E;
    first [reflexivity | discriminate E].
Qed.

Lemma space_not_word (c : ascii) :
  Js.isWhiteSpace c || Ascii.eqb c ":"%char = true -> Js.isWordChar c = false.
Proof.
  destruct c as [[] [] [] [] [] [] [] []]; vm_compute; intros E;
    first [reflexivity | discriminate E].
Qed.

Lemma append_nil (s : string) : "" +:+ s = s.
Proof. reflexivity. Qed.

Lemma append_cons (c : ascii) (a b : string) :
  String c a +:+ b = String c (a +:+ b).
Proof. reflexivity. Qed.

Lemma append_empty (s : string) : s +:+ "" = s.
Proof.
  induction s as [| c s IH]; [reflexivity |].
  rewrite append_cons, IH. reflexivity.
Qed.

Lemma append_assoc (a b c : string) : (a +:+ b) +:+ c = a +:+ (b +:+ c).
Proof.
  induction a as [| x a IH]; [reflexivity |].
  rewrite !append_cons, IH. reflexivity.
Qed.



(** Every casing of a literal matches it. *)
Lemma matchLiteral_casing (tok rest : string) :
  Js.matchLiteral (Js.toLowerCase tok) (tok +:+ rest) = Some (tok, rest).
Proof.
  induction tok as [| c tok IH].
  - destruct rest; reflexivity.
  - rewrite append_cons. cbn [Js.toLowerCase Js.matchLiteral].
    rewrite canonicalize_lower, Ascii.eqb_refl, IH. reflexivity.
Qed.

Lemma last_lower (s : string) :
  Js.isWord (Js.last (Js.toLowerCase s)) = Js.isWord (Js.last s).
Proof.
  induction s as [| c s IH]; [reflexivity |].
  destruct s as [| d s]; [cbn; apply isWordChar_lower | exact IH].
Qed.

Lemma trimStart_lower (s : string) :
  Js.toLowerCase (Js.trimStart s) = Js.trimStart (Js.toLowerCase s).
Proof.
  induction s as [| c s IH]; [reflexivity |]. cbn.
  rewrite isWhiteSpace_lower. destruct (Js.isWhiteSpace c);
    [exact IH | reflexivity].
Qed.

Lemma trimEnd_lower (s : string) :
  Js.toLowerCase (Js.trimEnd s) = Js.trimEnd (Js.toLowerCase s).
Proof.
  induction s as [| c s IH]; [reflexivity |]. cbn.
  rewrite <- IH, isWhiteSpace_lower.
  destruct (Js.trimEnd s); cbn; [destruct (Js.isWhiteSpace c) |];
    reflexivity.
Qed.

Lemma trim_lower (s : string) :
  Js.toLowerCase (Js.trim s) = Js.trim (Js.toLowerCase s).
Proof. unfold Js.trim. rewrite trimEnd_lower, trimStart_lower. reflexivity. Qed.

(** A text with a character that is no white space does not trim to the
    empty string. *)
Lemma trimEnd_nonempty (a b : string) (c : ascii) :
  Js.isWhiteSpace c = false -> Js.trimEnd (a +:+ String c b) <> "".
Proof.
  intros W. induction a as [| d a IH].
  - rewrite append_nil. cbn [Js.trimEnd].
    destruct (Js.trimEnd b); [rewrite W |]; discriminate.
  - rewrite append_cons. cbn [Js.trimEnd].
    destruct (Js.trimEnd (a +:+ String c b)); [congruence | discriminate].
Qed.

Lemma trimStart_keeps (a b : string) (c : ascii) :
  Js.isWhiteSpace c = false ->
  exists a', Js.trimStart (a +:+ String c b) = a' +:+ String c b.
Proof.
  intros W. induction a as [| d a IH].
  - rewrite append_nil. cbn [Js.trimStart]. rewrite W. exists "".
    reflexivity.
  - rewrite append_cons. cbn [Js.trimStart].
    destruct (Js.isWhiteSpace d); [exact IH |].
    exists (String d a). reflexivity.
Qed.

Lemma trim_nonempty (a b : string) (c : ascii) :
  Js.isWhiteSpace c = false -> Js.trim (a +:+ String c b) <> "".
Proof.
  intros W. unfold Js.trim.
  destruct (trimStart_keeps a b c W) as [a' E]. rewrite E.
  apply trimEnd_nonempty. exact W.
Qed.

End Casing.

(** ** Detection of control commands *)

Section Detection.

Lemma tokens_end_in_word (t : string) :
  In t CONTROL_COMMAND_TOKENS -> Js.isWord (Js.last t) = true.
Proof.
  intros I.
  assert (F : forallb (fun t => Js.isWord (Js.last t))
                      CONTROL_COMMAND_TOKENS = true) by reflexivity.
  rewrite forallb_forall in F. apply F. exact I.
Qed.

Lemma last_after_slash (t : string) :
  Js.isWord (Js.last t) = true ->
  Js.isWord (Js.last (String "/" t)) = true.
Proof. destruct t; [discriminate | intros E; exact E]. Qed.

Lemma tokenEnd_not_word (post : string) :
  Js.tokenEnd post = true -> Js.isWord (Js.head post) = false.
Proof.
  destruct post as [| c post]; [reflexivity |]. cbn.
  apply space_not_word.
Qed.

(** The pattern matches where a slash, a casing of a token and the end of
    the token follow each other. *)
Lemma slashTokenAt_casing (tokens : list string) (tok post : string) :
  In (Js.toLowerCase tok) tokens ->
  Js.isWord (Js.last (Js.toLowerCase tok)) = true ->
  Js.tokenEnd post = true ->
  Js.slashTokenAt tokens (String "/" (tok +:+ post)) = true.
Proof.
  intros I L E. cbn [Js.slashTokenAt]. apply existsb_exists.
  exists (Js.toLowerCase tok). split; [exact I |].
  rewrite matchLiteral_casing, E. cbn [andb]. unfold Js.wordBoundary.
  rewrite last_lower in L.
  rewrite (last_after_slash tok L), (tokenEnd_not_word post E).
  reflexivity.
Qed.

Lemma slashTokenAfterSpace_casing (tokens : list string)
      (pre : string) (c : ascii) (s : string) :
  Js.isWhiteSpace c = true ->
  Js.slashTokenAt tokens s = true ->
  Js.slashTokenAfterSpace tokens (pre +:+ String c s) = true.
Proof.
  intros W S. induction pre as [| d pre IH].
  - rewrite append_nil. cbn [Js.slashTokenAfterSpace]. rewrite W, S.
    reflexivity.
  - rewrite append_cons. cbn [Js.slashTokenAfterSpace]. rewrite IH.
    apply orb_true_r.
Qed.

(** When the pattern matches, [hasControlCommand] returns [true]. *)
Lemma hasControlCommand_slash (a b : string) :
  CONTROL_COMMAND_RE_test (a +:+ String "/" b) = true ->
  hasControlCommand (Some (a +:+ String "/" b)) = true.
Proof.
  intros R. unfold hasControlCommand.
  assert (N : Js.trim (a +:+ String "/" b) <> "")
    by (apply trim_nonempty; reflexivity).
  assert (T : Js.truthy (Some (a +:+ String "/" b)) = true).
  { destruct a; reflexivity. }
  apply truthy_Some in N. cbn [default from_option]. unfold id.
  rewrite T, N. cbn [negb]. rewrite R.
  destruct (Js.includes _ _); reflexivity.
Qed.

(** A text whose trimmed, lower-cased form is an exact command. *)
Lemma hasControlCommand_exact (text : string) :
  In (Js.toLowerCase (Js.trim text)) CONTROL_COMMAND_EXACT ->
  hasControlCommand (Some text) = true.
Proof.
  intros I. unfold hasControlCommand.
  assert (N : Js.trim text <> "").
  { intros E. rewrite E in I. cbn in I. intuition discriminate. }
  assert (T : Js.truthy (Some text) = true).
  { destruct text; [exfalso; apply N; reflexivity | reflexivity]. }
  apply truthy_Some in N. cbn [default from_option]. unfold id.
  apply includes_In in I. rewrite T, N, I. reflexivity.
Qed.

(** A text with a slash and a casing of a token, at the start or after a
    white space, and before the end, a white space or a colon. *)
Lemma hasControlCommand_token (pre tok post : string) :
  In (Js.toLowerCase tok) CONTROL_COMMAND_TOKENS ->
  (pre = ""
   \/ exists pre' c, pre = pre' +:+ String c "" /\ Js.isWhiteSpace c = true) ->
  (post = ""
   \/ exists c post', post = String c post'
                      /\ (Js.isWhiteSpace c = true \/ c = ":"%char)) ->
  hasControlCommand (Some (pre +:+ "/" +:+ tok +:+ post)) = true.
Proof.
  intros I Pre Post.
  assert (E : Js.tokenEnd post = true).
  { destruct Post as [-> | (c & post' & -> & [W | ->])];
      [reflexivity | cbn; rewrite W; reflexivity | reflexivity]. }
  pose proof (slashTokenAt_casing CONTROL_COMMAND_TOKENS tok post I
                (tokens_end_in_word _ I) E) as S.
  change ("/" +:+ tok +:+ post) with (String "/" (tok +:+ post)).
  apply hasControlCommand_slash.
  unfold CONTROL_COMMAND_RE_test, Js.testSlashToken.
  destruct Pre as [-> | (pre' & c & -> & W)].
  - rewrite append_nil, S. reflexivity.
  - rewrite append_assoc.
    change (String c "" +:+ String "/" (tok +:+ post))
      with (String c (String "/" (tok +:+ post))).
    rewrite (slashTokenAfterSpace_casing _ pre' c _ W S).
    apply orb_true_r.
Qed.

(** C9, as amended.  [hasControlCommand] accepts the whole token set,
    synonyms included: "ok /v" and "/model" are accepted and "just
    chatting" is not; a text whose trimmed, lower-cased form is one of the
    eight exact commands is accepted; and so is a text in which a slash and
    any casing of one of the seventeen tokens stand at the start of the
    text or directly after a white space, and are followed by the end of
    the text, a white space or a colon. *)
Theorem hasControlCommand_token_set :
  hasControlCommand (Some "ok /v") = true
  /\ hasControlCommand (Some "/model") = true
  /\ hasControlCommand (Some "just chatting") = false
  /\ (forall text : string,
        In (Js.toLowerCase (Js.trim text))
           ["/help"; "/status"; "/restart"; "/activation"; "/send";
            "/reset"; "/new"; "/compact"] ->
        hasControlCommand (Some text) = true)
  /\ (forall pre tok post : string,
        In (Js.toLowerCase tok)
           ["status"; "help"; "thinking"; "think"; "t"; "verbose"; "v";
            "elevated"; "elev"; "model"; "queue"; "activation"; "send";
            "restart"; "reset"; "new"; "compact"] ->
        (pre = ""
         \/ exists pre' c, pre = pre' +:+ String c ""
                           /\ Js.isWhiteSpace c = true) ->
        (post = ""
         \/ exists c post', post = String c post'
                            /\ (Js.isWhiteSpace c = true \/ c = ":"%char)) ->
        hasControlCommand (Some (pre +:+ "/" +:+ tok +:+ post)) = true).
Proof.
  split; [reflexivity |]. split; [reflexivity |]. split; [reflexivity |].
  split.
  - intros text I. apply hasControlCommand_exact. exact I.
  - intros pre tok post I. apply hasControlCommand_token. exact I.
Qed.

End Detection.

(** ** Casing of the exact commands *)

Section ExactCommands.
Context `{Collaborators}.







End ExactCommands.


(** * Further properties *)

(** ** Trimming *)

Section Trimming.

Lemma trimStart_clean (s : string) : startsClean (Js.trimStart s) = true.
Proof.
  induction s as [| c s IH]; [reflexivity |]. cbn [Js.trimStart].
  destruct (Js.isWhiteSpace c) eqn:W; [exact IH |]. cbn. rewrite W.
  reflexivity.
Qed.

Lemma trimStart_of_clean (s : string) :
  startsClean s = true -> Js.trimStart s = s.
Proof.
  destruct s as [| c s]; [reflexivity |]. cbn.
  destruct (Js.isWhiteSpace c); [discriminate | reflexivity].
Qed.

Lemma trimEnd_clean (s : string) :
  startsClean s = true -> startsClean (Js.trimEnd s) = true.
Proof.
  destruct s as [| c s]; [reflexivity |]. cbn [startsClean Js.trimEnd].
  intros W. destruct (Js.trimEnd s); [| exact W].
  destruct (Js.isWhiteSpace c) eqn:Wc; [reflexivity |].
  cbn. rewrite Wc. reflexivity.
Qed.

Lemma trimEnd_cons (c : ascii) (r : string) :
  Js.trimEnd (String c r)
  = match Js.trimEnd r with
    | EmptyString =>
        if Js.isWhiteSpace c then EmptyString else String c EmptyString
    | r' => String c r'
    end.
Proof. reflexivity. Qed.

Lemma trimEnd_idempotent (s : string) :
  Js.trimEnd (Js.trimEnd s) = Js.trimEnd s.
Proof.
  induction s as [| c s IH]; [reflexivity |]. rewrite trimEnd_cons.
  destruct (Js.trimEnd s) as [| d t] eqn:E.
  - destruct (Js.isWhiteSpace c) eqn:W; [reflexivity |].
    cbn. rewrite W. reflexivity.
  - rewrite trimEnd_cons, IH. reflexivity.
Qed.

Lemma trim_clean (s : string) : startsClean (Js.trim s) = true.
Proof. apply trimEnd_clean, trimStart_clean. Qed.

(** Trimming twice is trimming once. *)
Lemma trim_idempotent (s : string) : Js.trim (Js.trim s) = Js.trim s.
Proof.
  unfold Js.trim at 1. rewrite (trimStart_of_clean _ (trim_clean s)).
  apply trimEnd_idempotent.
Qed.

(** What [trimStart] removes is white space. *)
Lemma trimStart_split (s : string) :
  exists a, s = a +:+ Js.trimStart s /\ allChars Js.isWhiteSpace a = true.
Proof.
  induction s as [| c s (a & E & A)]; [exists ""; split; reflexivity |].
  cbn [Js.trimStart]. destruct (Js.isWhiteSpace c) eqn:W.
  - exists (String c a). rewrite append_cons, <- E. cbn. rewrite W, A.
    split; reflexivity.
  - exists "". split; reflexivity.
Qed.

(** What [trimEnd] removes is white space. *)
Lemma trimEnd_split (s : string) :
  exists b, s = Js.trimEnd s +:+ b /\ allChars Js.isWhiteSpace b = true.
Proof.
  induction s as [| c s (b & E & B)]; [exists ""; split; reflexivity |].
  cbn [Js.trimEnd]. destruct (Js.trimEnd s) as [| d t] eqn:T.
  - rewrite append_nil in E. subst b.
    destruct (Js.isWhiteSpace c) eqn:W.
    + exists (String c s). rewrite append_nil. cbn. rewrite W, B.
      split; reflexivity.
    + exists s. split; [reflexivity | exact B].
  - exists b. rewrite append_cons, <- E. split; [reflexivity | exact B].
Qed.

Lemma trim_split (s : string) :
  exists a b, s = a +:+ Js.trim s +:+ b
              /\ allChars Js.isWhiteSpace a = true
              /\ allChars Js.isWhiteSpace b = true.
Proof.
  destruct (trimStart_split s) as (a & Ea & A).
  destruct (trimEnd_split (Js.trimStart s)) as (b & Eb & B).
  exists a, b. unfold Js.trim. rewrite <- Eb, <- Ea. auto.
Qed.

(** A text that starts and ends with characters that are no white space is
    its own trimmed form. *)
Lemma trimEnd_of_tidy (s : string) (c : ascii) :
  Js.isWhiteSpace c = false ->
  Js.trimEnd (s +:+ String c "") = s +:+ String c "".
Proof.
  intros W. induction s as [| d s IH].
  - rewrite append_nil. cbn. rewrite W. reflexivity.
  - rewrite append_cons, trimEnd_cons, IH.
    destruct s; reflexivity.
Qed.

End Trimming.


(** ** Matching *)

Section Matching.

Lemma lower_canonical (c : ascii) :
  Js.toLowerCaseChar (Js.canonicalize c) = Js.toLowerCaseChar c.
Proof. destruct c as [[] [] [] [] [] [] [] []]; reflexivity. Qed.

Lemma lower_lower (c : ascii) :
  Js.toLowerCaseChar (Js.toLowerCaseChar c) = Js.toLowerCaseChar c.
Proof. destruct c as [[] [] [] [] [] [] [] []]; reflexivity. Qed.

Lemma letter_not_space (c : ascii) :
  Js.isLetter c = true -> Js.isWhiteSpace c = false.
Proof.
  destruct c as [[] [] [] [] [] [] [] []]; vm_compute; intros E;
    first [reflexivity | discriminate E].
Qed.

Lemma space_not_letter (c : ascii) :
  Js.isWhiteSpace c = true -> Js.isLetter c = false.
Proof.
  intros W. destruct (Js.isLetter c) eqn:L; [| reflexivity].
  apply letter_not_space in L. congruence.
Qed.

Lemma isLetter_lower (c : ascii) :
  Js.isLetter (Js.toLowerCaseChar c) = Js.isLetter c.
Proof. unfold Js.isLetter. rewrite canonicalize_lower. reflexivity. Qed.

Lemma toLowerCase_idempotent (s : string) :
  Js.toLowerCase (Js.toLowerCase s) = Js.toLowerCase s.
Proof.
  induction s as [| c s IH]; [reflexivity |]. cbn.
  rewrite lower_lower, IH. reflexivity.
Qed.

Lemma toLowerCase_append (a b : string) :
  Js.toLowerCase (a +:+ b) = Js.toLowerCase a +:+ Js.toLowerCase b.
Proof.
  induction a as [| c a IH]; [reflexivity |].
  rewrite append_cons. cbn [Js.toLowerCase]. rewrite IH, append_cons.
  reflexivity.
Qed.

Lemma allChars_lower (s : string) :
  allChars Js.isLetter (Js.toLowerCase s) = allChars Js.isLetter s.
Proof.
  induction s as [| c s IH]; [reflexivity |]. cbn.
  rewrite isLetter_lower, IH. reflexivity.
Qed.

(** What a literal matches is a casing of the literal. *)
Lemma matchLiteral_sound (pat s m rest : string) :
  Js.matchLiteral pat s = Some (m, rest) ->
  s = m +:+ rest /\ Js.toLowerCase m = Js.toLowerCase pat.
Proof.
  revert s m rest. induction pat as [| p pat IH]; intros s m rest.
  - destruct s; cbn; intros E; inversion E; split; reflexivity.
  - destruct s as [| c s]; cbn [Js.matchLiteral]; [discriminate |].
    destruct (Ascii.eqb (Js.canonicalize p) (Js.canonicalize c)) eqn:E;
      [| discriminate].
    destruct (Js.matchLiteral pat s) as [[m' rest'] |] eqn:M;
      [| discriminate].
    intros I. inversion I; subst. destruct (IH _ _ _ M) as [-> L].
    split; [reflexivity |]. cbn [Js.toLowerCase]. rewrite L.
    apply Ascii.eqb_eq in E.
    rewrite <- (lower_canonical c), <- E, lower_canonical. reflexivity.
Qed.

(** [span] cuts the text where the characters stop to satisfy [f]. *)
Lemma span_sound (f : ascii -> bool) (s a b : string) :
  Js.span f s = (a, b) ->
  s = a +:+ b /\ allChars f a = true
  /\ match b with
     | EmptyString => True
     | String c _ => f c = false
     end.
Proof.
  revert a b. induction s as [| c s IH]; intros a b; cbn [Js.span].
  - intros E. inversion E. repeat split.
  - destruct (f c) eqn:F.
    + destruct (Js.span f s) as [a' b'] eqn:S. intros E. inversion E; subst.
      destruct (IH _ _ eq_refl) as (-> & A & B).
      rewrite append_cons. cbn. rewrite F, A. repeat split. exact B.
    + intros E. inversion E; subst. rewrite append_nil. repeat split.
      exact F.
Qed.

Lemma span_complete (f : ascii -> bool) (a b : string) :
  allChars f a = true ->
  match b with
  | EmptyString => True
  | String c _ => f c = false
  end ->
  Js.span f (a +:+ b) = (a, b).
Proof.
  intros A B. induction a as [| c a IH].
  - rewrite append_nil. destruct b as [| d b]; [reflexivity |].
    cbn. rewrite B. reflexivity.
  - cbn in A. apply andb_true_iff in A as [Fc A].
    rewrite append_cons. cbn [Js.span]. rewrite Fc, (IH A). reflexivity.
Qed.

Lemma trimEnd_of_letters (s : string) :
  allChars Js.isLetter s = true -> Js.trimEnd s = s.
Proof.
  induction s as [| c s IH]; [reflexivity |]. cbn [allChars].
  intros A. apply andb_true_iff in A as [L A].
  rewrite trimEnd_cons, (IH A), (letter_not_space c L).
  destruct s; reflexivity.
Qed.

Lemma trim_of_letters (s : string) :
  allChars Js.isLetter s = true -> Js.trim s = s.
Proof.
  intros A. unfold Js.trim. rewrite trimStart_of_clean.
  - apply trimEnd_of_letters. exact A.
  - destruct s as [| c s]; [reflexivity |]. cbn in *.
    apply andb_true_iff in A as [L _].
    rewrite (letter_not_space c L). reflexivity.
Qed.

End Matching.

(** ** group-activation.ts *)

Section GroupActivation.

Lemma normalize_of_lower (s : string) (m : GroupActivationMode) :
  normalizeGroupActivation (Some s) = Some m
  <-> Js.toLowerCase (Js.trim s) = modeText m.
Proof.
  unfold normalizeGroupActivation. cbn [option_map].
  destruct (String.eqb (Js.toLowerCase (Js.trim s)) "mention") eqn:E1.
  - apply String.eqb_eq in E1. rewrite E1.
    destruct m; split; intros E; first [reflexivity | discriminate E].
  - destruct (String.eqb (Js.toLowerCase (Js.trim s)) "always") eqn:E2.
    + apply String.eqb_eq in E2. rewrite E2.
      destruct m; split; intros E; first [reflexivity | discriminate E].
    + apply String.eqb_neq in E1, E2.
      destruct m; split; intros E; first [discriminate E | contradiction].
Qed.

(** [normalizeGroupActivation] sees neither the case nor the white space
    around its argument, returns a mode exactly on a casing of the name of
    the mode, and maps the name of every mode back to the mode. *)
Theorem normalizeGroupActivation_insensitive (s : string) :
  normalizeGroupActivation (Some (Js.trim s))
  = normalizeGroupActivation (Some s)
  /\ normalizeGroupActivation (Some (Js.toLowerCase s))
     = normalizeGroupActivation (Some s)
  /\ (forall m, normalizeGroupActivation (Some s) = Some m
                <-> Js.toLowerCase (Js.trim s) = modeText m)
  /\ (forall m, normalizeGroupActivation (Some (modeText m)) = Some m).
Proof.
  split; [| split; [| split]].
  - unfold normalizeGroupActivation. cbn [option_map].
    rewrite trim_idempotent. reflexivity.
  - unfold normalizeGroupActivation. cbn [option_map].
    rewrite <- trim_lower, toLowerCase_idempotent. reflexivity.
  - intros m. apply normalize_of_lower.
  - intros m. destruct m; reflexivity.
Qed.

End GroupActivation.


Section ActivationCommand.

Lemma truthy_trim (s : string) :
  Js.truthy (Some (Js.trim s)) = true -> Js.truthy (Some s) = true.
Proof. destruct s; [intros E; exact E | reflexivity]. Qed.

(** The white space around a message does not change how it is parsed. *)
Theorem parseActivationCommand_trim (s : string) :
  parseActivationCommand (Some (Js.trim s)) = parseActivationCommand (Some s).
Proof.
  unfold parseActivationCommand. cbn [default from_option]. unfold id.
  rewrite trim_idempotent.
  destruct (Js.truthy (Some (Js.trim s))) eqn:T.
  - rewrite (truthy_trim s T). reflexivity.
  - cbn [negb]. destruct (Js.truthy (Some s)); reflexivity.
Qed.

(** What [parseActivationCommand] does on a message with a trimmed form
    that is not empty. *)
Lemma parseActivationCommand_trimmed (s : string) :
  Js.trim s <> "" ->
  parseActivationCommand (Some s)
  = match matchActivation (Js.trim s) with
    | None => {| hasCommand := false; mode := None |}
    | Some group1 =>
        {| hasCommand := true; mode := normalizeGroupActivation group1 |}
    end.
Proof.
  intros N. apply truthy_Some in N. unfold parseActivationCommand.
  cbn [default from_option]. unfold id.
  rewrite (truthy_trim s N), N. reflexivity.
Qed.

Lemma parseActivationCommand_blank (s : string) :
  Js.trim s = "" ->
  parseActivationCommand (Some s) = {| hasCommand := false; mode := None |}.
Proof.
  intros E. unfold parseActivationCommand. cbn [default from_option].
  unfold id. rewrite E. destruct (Js.truthy (Some s)); reflexivity.
Qed.

Lemma activation_token_ends_in_word (cmd : string) :
  Js.toLowerCase cmd = "/activation" -> Js.isWord (Js.last cmd) = true.
Proof. intros L. rewrite <- last_lower, L. reflexivity. Qed.

(** [parseActivationCommand] finds the command exactly in the messages
    whose trimmed form starts with a casing of [/activation] that is not
    followed by a letter, a digit or an underscore. *)
Theorem parseActivationCommand_hasCommand (s : string) :
  hasCommand (parseActivationCommand (Some s)) = true
  <-> exists cmd rest,
      Js.trim s = cmd +:+ rest
      /\ Js.toLowerCase cmd = "/activation"
      /\ Js.isWord (Js.head rest) = false.
Proof.
  split.
  - intros Hc. destruct (Js.trim s) as [| c0 t0] eqn:T.
    { rewrite (parseActivationCommand_blank s T) in Hc. discriminate Hc. }
    rewrite parseActivationCommand_trimmed in Hc by (rewrite T; discriminate).
    rewrite T in Hc. unfold matchActivation in Hc.
    destruct (Js.matchLiteral "/activation" (String c0 t0))
      as [[cmd rest] |] eqn:Ml; [| discriminate Hc].
    destruct (Js.wordBoundary cmd rest) eqn:Wb; [| discriminate Hc].
    destruct (matchLiteral_sound _ _ _ _ Ml) as [E L].
    exists cmd, rest. split; [exact E |]. split; [exact L |].
    unfold Js.wordBoundary in Wb.
    rewrite (activation_token_ends_in_word cmd L) in Wb.
    destruct (Js.isWord (Js.head rest)); [discriminate Wb | reflexivity].
  - intros (cmd & rest & E & L & W).
    assert (N : Js.trim s <> "").
    { rewrite E. destruct cmd; [discriminate L | discriminate]. }
    rewrite (parseActivationCommand_trimmed s N), E.
    unfold matchActivation.
    pose proof (matchLiteral_casing cmd rest) as Ml. rewrite L in Ml.
    rewrite Ml. unfold Js.wordBoundary.
    rewrite (activation_token_ends_in_word cmd L), W. cbn [xorb].
    destruct (Js.span Js.isWhiteSpace rest) as [spaces rest'].
    destruct (Js.span Js.isLetter rest') as [letters tail].
    destruct spaces, letters; reflexivity.
Qed.

Lemma activation_mode_shape (s : string) (m : GroupActivationMode) :
  mode (parseActivationCommand (Some s)) = Some m
  <-> exists cmd spaces word tail,
      Js.trim s = cmd +:+ spaces +:+ word +:+ tail
      /\ Js.toLowerCase cmd = "/activation"
      /\ spaces <> ""
      /\ allChars Js.isWhiteSpace spaces = true
      /\ Js.toLowerCase word = modeText m
      /\ match tail with
         | EmptyString => True
         | String c _ => Js.isLetter c = false
         end.
Proof.
  split.
  - intros Hm. destruct (Js.trim s) as [| c0 t0] eqn:T.
    { rewrite (parseActivationCommand_blank s T) in Hm. discriminate Hm. }
    rewrite parseActivationCommand_trimmed in Hm by (rewrite T; discriminate).
    rewrite T in Hm. unfold matchActivation in Hm.
    destruct (Js.matchLiteral "/activation" (String c0 t0))
      as [[cmd rest] |] eqn:Ml; [| discriminate Hm].
    destruct (Js.wordBoundary cmd rest) eqn:Wb; [| discriminate Hm].
    destruct (matchLiteral_sound _ _ _ _ Ml) as [E L].
    destruct (Js.span Js.isWhiteSpace rest) as [spaces rest'] eqn:S1.
    destruct (Js.span Js.isLetter rest') as [letters tail] eqn:S2.
    destruct (span_sound _ _ _ _ S1) as (E1 & A1 & _).
    destruct (span_sound _ _ _ _ S2) as (E2 & A2 & B2).
    destruct spaces as [| sc sp]; [discriminate Hm |].
    destruct letters as [| lc lt]; [discriminate Hm |].
    cbn [mode] in Hm. apply normalize_of_lower in Hm.
    rewrite (trim_of_letters _ A2) in Hm.
    exists cmd, (String sc sp), (String lc lt), tail.
    rewrite E, E1, E2. repeat split; try assumption. discriminate.
  - intros (cmd & spaces & word & tail & E & L & Ns & As & Lw & Bt).
    assert (N : Js.trim s <> "").
    { rewrite E. destruct cmd; [discriminate L | discriminate]. }
    assert (Aw : allChars Js.isLetter word = true).
    { rewrite <- allChars_lower, Lw. destruct m; reflexivity. }
    assert (Nw : word <> "").
    { intros ->. destruct m; discriminate Lw. }
    rewrite (parseActivationCommand_trimmed s N), E.
    unfold matchActivation.
    pose proof (matchLiteral_casing cmd (spaces +:+ word +:+ tail)) as Ml.
    rewrite L in Ml. rewrite Ml. unfold Js.wordBoundary.
    rewrite (activation_token_ends_in_word cmd L).
    assert (Hd : Js.isWord (Js.head (spaces +:+ word +:+ tail)) = false).
    { destruct spaces as [| sc sp]; [congruence |]. cbn in As |- *.
      apply andb_true_iff in As as [Wc _]. apply space_not_word.
      rewrite Wc. reflexivity. }
    rewrite Hd. cbn [xorb].
    rewrite (span_complete Js.isWhiteSpace spaces (word +:+ tail) As).
    + rewrite (span_complete Js.isLetter word tail Aw Bt).
      destruct spaces as [| sc sp]; [congruence |].
      destruct word as [| wc wt]; [congruence |].
      cbn [mode]. apply normalize_of_lower.
      rewrite (trim_of_letters _ Aw). exact Lw.
    + destruct word as [| wc wt]; [congruence |]. rewrite append_cons.
      cbn in Aw. apply andb_true_iff in Aw as [Lc _].
      apply letter_not_space. exact Lc.
Qed.

(** [parseActivationCommand] returns a mode exactly when the command is
    followed by white space and a casing of the name of the mode, and the
    name is not followed by a letter. *)
Theorem parseActivationCommand_mode (s : string) (m : GroupActivationMode) :
  mode (parseActivationCommand (Some s)) = Some m
  <-> exists cmd spaces word tail,
      Js.trim s = cmd +:+ spaces +:+ word +:+ tail
      /\ Js.toLowerCase cmd = "/activation"
      /\ spaces <> ""
      /\ allChars Js.isWhiteSpace spaces = true
      /\ Js.toLowerCase word = modeText m
      /\ match tail with
         | EmptyString => True
         | String c _ => Js.isLetter c = false
         end.
Proof. apply activation_mode_shape. Qed.

End ActivationCommand.


(** ** The command detector *)

Section Detector.

Lemma tokens_are_lower (t : string) :
  In t CONTROL_COMMAND_TOKENS -> Js.toLowerCase t = t.
Proof.
  intros I.
  assert (F : forallb (fun t => String.eqb (Js.toLowerCase t) t)
                      CONTROL_COMMAND_TOKENS = true) by reflexivity.
  rewrite forallb_forall in F. apply String.eqb_eq, F, I.
Qed.

Lemma last_split (s : string) (c : ascii) :
  Js.last s = Some c -> exists s', s = s' +:+ String c "".
Proof.
  induction s as [| d s IH]; [discriminate |].
  destruct s as [| e s].
  - cbn. intros E. inversion E. exists "". reflexivity.
  - intros E. destruct (IH E) as [s' ->]. exists (String d s').
    reflexivity.
Qed.

Lemma last_append_char (s : string) (c : ascii) :
  Js.last (s +:+ String c "") = Some c.
Proof.
  induction s as [| d s IH]; [reflexivity |].
  rewrite append_cons. destruct (s +:+ String c "") eqn:E.
  - destruct s; discriminate E.
  - exact IH.
Qed.

Lemma spaces_tokenStart (a : string) :
  allChars Js.isWhiteSpace a = true -> tokenStart a = true.
Proof.
  unfold tokenStart. induction a as [| c a IH]; [reflexivity |].
  cbn [allChars]. intros A. apply andb_true_iff in A as [W A].
  destruct a as [| d a]; [exact W | exact (IH A)].
Qed.

Lemma spaces_tokenEnd (b : string) :
  allChars Js.isWhiteSpace b = true -> Js.tokenEnd b = true.
Proof.
  destruct b as [| c b]; [reflexivity |]. cbn. intros A.
  apply andb_true_iff in A as [W _]. rewrite W. reflexivity.
Qed.

Lemma slashTokenAt_sound (tokens : list string) (s : string) :
  (forall t, In t tokens -> Js.toLowerCase t = t) ->
  Js.slashTokenAt tokens s = true ->
  exists tok post,
    s = String "/" (tok +:+ post)
    /\ In (Js.toLowerCase tok) tokens
    /\ Js.tokenEnd post = true.
Proof.
  intros Low S. destruct s as [| c r]; [discriminate S |].
  cbn [Js.slashTokenAt] in S.
  destruct (Ascii.ascii_dec c "/") as [-> | Nc].
  - apply existsb_exists in S as (t & I & M).
    destruct (Js.matchLiteral t r) as [[m rest] |] eqn:Ml; [| discriminate M].
    apply andb_true_iff in M as [E _].
    destruct (matchLiteral_sound _ _ _ _ Ml) as [-> L].
    exists m, rest. rewrite L, (Low t I). auto.
  - exfalso. destruct c as [[] [] [] [] [] [] [] []];
      first [discriminate S | apply Nc; reflexivity].
Qed.

Lemma slashTokenAfterSpace_sound (tokens : list string) (s : string) :
  Js.slashTokenAfterSpace tokens s = true ->
  exists pre c r,
    s = pre +:+ String c r /\ Js.isWhiteSpace c = true
    /\ Js.slashTokenAt tokens r = true.
Proof.
  induction s as [| d s IH]; [discriminate |]. cbn [Js.slashTokenAfterSpace].
  intros S. apply orb_true_iff in S as [S | S].
  - apply andb_true_iff in S as [W S]. exists "", d, s. auto.
  - destruct (IH S) as (pre & c & r & -> & W & A).
    exists (String d pre), c, r. auto.
Qed.

(** Where the pattern of a token list matches. *)
Lemma testSlashToken_sound (tokens : list string) (text : string) :
  (forall t, In t tokens -> Js.toLowerCase t = t) ->
  Js.testSlashToken tokens text = true ->
  exists pre tok post,
    text = pre +:+ "/" +:+ tok +:+ post
    /\ In (Js.toLowerCase tok) tokens
    /\ tokenStart pre = true
    /\ Js.tokenEnd post = true.
Proof.
  intros Low T. unfold Js.testSlashToken in T.
  apply orb_true_iff in T as [T | T].
  - destruct (slashTokenAt_sound tokens text Low T)
      as (tok & post & -> & I & E).
    exists "", tok, post. auto.
  - destruct (slashTokenAfterSpace_sound tokens text T)
      as (pre & c & r & -> & W & A).
    destruct (slashTokenAt_sound tokens r Low A) as (tok & post & -> & I & E).
    exists (pre +:+ String c ""), tok, post.
    rewrite append_assoc. unfold tokenStart. rewrite last_append_char.
    auto.
Qed.

Lemma testSlashToken_complete (tokens : list string) (pre tok post : string) :
  In (Js.toLowerCase tok) tokens ->
  Js.isWord (Js.last (Js.toLowerCase tok)) = true ->
  tokenStart pre = true ->
  Js.tokenEnd post = true ->
  Js.testSlashToken tokens (pre +:+ "/" +:+ tok +:+ post) = true.
Proof.
  intros I L P E.
  pose proof (slashTokenAt_casing tokens tok post I L E) as S.
  change ("/" +:+ tok +:+ post) with (String "/" (tok +:+ post)).
  unfold Js.testSlashToken, tokenStart in *.
  destruct (Js.last pre) as [c |] eqn:La.
  - destruct (last_split pre c La) as [pre' ->]. rewrite append_assoc.
    change (String c "" +:+ String "/" (tok +:+ post))
      with (String c (String "/" (tok +:+ post))).
    rewrite (slashTokenAfterSpace_casing _ pre' c _ P S). apply orb_true_r.
  - destruct pre as [| d pre]; [rewrite append_nil, S; reflexivity |].
    exfalso. clear -La. revert d La.
    induction pre as [| e pre IH]; intros d La; [discriminate La |].
    exact (IH e La).
Qed.

Lemma exact_commands_are_tokens (e : string) :
  In e CONTROL_COMMAND_EXACT ->
  exists t, e = String "/" t /\ In t CONTROL_COMMAND_TOKENS.
Proof.
  intros I. cbn in I.
  repeat destruct I as [I | I]; try contradiction; subst e;
    eexists; (split; [reflexivity | vm_compute; tauto]).
Qed.

(** A text that is an exact command when trimmed and lower-cased is matched
    by the pattern as well. *)
Lemma exact_in_pattern (text : string) :
  In (Js.toLowerCase (Js.trim text)) CONTROL_COMMAND_EXACT ->
  CONTROL_COMMAND_RE_test text = true.
Proof.
  intros I. destruct (exact_commands_are_tokens _ I) as (t & E & It).
  destruct (trim_split text) as (a & b & Et & A & B).
  destruct (Js.trim text) as [| c0 tok]; [discriminate E |].
  cbn [Js.toLowerCase] in E. injection E as Ec Etok.
  apply lower_slash in Ec. subst c0.
  rewrite Et. unfold CONTROL_COMMAND_RE_test.
  change (String "/" tok +:+ b) with ("/" +:+ tok +:+ b).
  apply testSlashToken_complete.
  - rewrite Etok. exact It.
  - rewrite Etok. apply tokens_end_in_word, It.
  - apply spaces_tokenStart, A.
  - apply spaces_tokenEnd, B.
Qed.

Lemma pattern_detected (text : string) :
  CONTROL_COMMAND_RE_test text = true -> hasControlCommand (Some text) = true.
Proof.
  intros R.
  destruct (testSlashToken_sound _ text tokens_are_lower R)
    as (pre & tok & post & E & _).
  rewrite E in R |- *. apply hasControlCommand_slash. exact R.
Qed.

Lemma detector_is_pattern (text : string) :
  hasControlCommand (Some text) = CONTROL_COMMAND_RE_test text.
Proof.
  destruct (CONTROL_COMMAND_RE_test text) eqn:R.
  - apply pattern_detected, R.
  - unfold hasControlCommand. cbn [default from_option]. unfold id.
    destruct (Js.truthy (Some text)); [| reflexivity].
    destruct (Js.truthy (Some (Js.trim text))); [| reflexivity].
    cbn [negb].
    destruct (Js.includes CONTROL_COMMAND_EXACT
                (Js.toLowerCase (Js.trim text))) eqn:I; [| exact R].
    apply includes_In, exact_in_pattern in I. congruence.
Qed.

(** The set of exact commands never changes the answer:
    [hasControlCommand] is the test of the pattern, on every text. *)
Theorem hasControlCommand_is_pattern (text : option string) :
  hasControlCommand text
  = match text with
    | Some t => CONTROL_COMMAND_RE_test t
    | None => false
    end.
Proof. destruct text; [apply detector_is_pattern | reflexivity]. Qed.

(** [hasControlCommand] accepts a text exactly when the text has, at its
    start or after a white space, a slash and a casing of a token, followed
    by the end of the text, a white space or a colon. *)
Theorem hasControlCommand_characterized (text : string) :
  hasControlCommand (Some text) = true
  <-> exists pre tok post,
      text = pre +:+ "/" +:+ tok +:+ post
      /\ In (Js.toLowerCase tok) CONTROL_COMMAND_TOKENS
      /\ tokenStart pre = true
      /\ Js.tokenEnd post = true.
Proof.
  rewrite detector_is_pattern. split.
  - apply testSlashToken_sound, tokens_are_lower.
  - intros (pre & tok & post & -> & I & P & E).
    apply testSlashToken_complete; auto. apply tokens_end_in_word, I.
Qed.

End Detector.


(** ** The triggers of the handler and the detector *)

Section Triggers.
Context `{Collaborators}.

Lemma startsWith_split (s pre : string) :
  Js.startsWith s pre = true -> exists r, s = pre +:+ r.
Proof.
  unfold Js.startsWith. revert s.
  induction pre as [| a pre IH]; intros s E; [exists s; reflexivity |].
  destruct s as [| b s]; cbn in E; [discriminate E |].
  destruct (ascii_dec a b) as [-> |]; [| discriminate E].
  destruct (IH s E) as [r ->]. exists r. reflexivity.
Qed.

(** A lower-case token at the start of the text, alone or followed by a
    space. *)
Lemma exact_or_spaced_detected (body tok : string) :
  In tok CONTROL_COMMAND_TOKENS ->
  String.eqb body ("/" +:+ tok) || Js.startsWith body ("/" +:+ tok +:+ " ")
  = true ->
  hasControlCommand (Some body) = true.
Proof.
  intros I B. rewrite detector_is_pattern. unfold CONTROL_COMMAND_RE_test.
  assert (L : Js.toLowerCase tok = tok) by (apply tokens_are_lower, I).
  apply orb_true_iff in B as [B | B].
  - apply String.eqb_eq in B. subst body.
    rewrite <- (append_empty tok) at 1.
    apply (testSlashToken_complete CONTROL_COMMAND_TOKENS "" tok "");
      rewrite ?L; auto. apply tokens_end_in_word, I.
  - destruct (startsWith_split _ _ B) as [r ->].
    replace (("/" +:+ tok +:+ " ") +:+ r)
      with ("" +:+ "/" +:+ tok +:+ String " " r).
    + apply testSlashToken_complete; rewrite ?L; auto.
      apply tokens_end_in_word, I.
    + rewrite append_nil.
      change ("/" +:+ tok +:+ String " " r)
        with (String "/" (tok +:+ String " " r)).
      change (("/" +:+ tok +:+ " ") +:+ r)
        with (String "/" ((tok +:+ " ") +:+ r)).
      rewrite append_assoc. reflexivity.
Qed.

Lemma help_pattern_detected (body : string) :
  Js.testSlashToken ["help"] body = true ->
  hasControlCommand (Some body) = true.
Proof.
  intros T. rewrite detector_is_pattern.
  destruct (testSlashToken_sound ["help"] body) as
    (pre & tok & post & -> & I & P & E); [| exact T |].
  - intros t [<- | []]. reflexivity.
  - destruct I as [I | []].
    apply testSlashToken_complete; rewrite <- ?I; auto.
    vm_compute. tauto.
Qed.

Lemma activation_with_mode_detected (body : string) (m : GroupActivationMode) :
  mode (parseActivationCommand (Some body)) = Some m ->
  hasControlCommand (Some body) = true.
Proof.
  intros Hm. apply activation_mode_shape in Hm
    as (cmd & spaces & word & tail & E & L & Ns & As & _).
  destruct (trim_split body) as (a & b & Eb & A & B).
  destruct cmd as [| c0 tok]; [discriminate L |].
  cbn [Js.toLowerCase] in L. injection L as Lc Lt.
  apply lower_slash in Lc. subst c0.
  rewrite detector_is_pattern, Eb, E.
  replace (a +:+ (String "/" tok +:+ spaces +:+ word +:+ tail) +:+ b)
    with (a +:+ "/" +:+ tok +:+ (spaces +:+ (word +:+ tail) +:+ b)).
  - apply testSlashToken_complete.
    + rewrite Lt. vm_compute. tauto.
    + rewrite Lt. reflexivity.
    + apply spaces_tokenStart, A.
    + destruct spaces as [| sc sp]; [congruence |]. cbn in As.
      apply andb_true_iff in As as [W _].
      rewrite append_cons. cbn [Js.tokenEnd]. rewrite W. reflexivity.
  - f_equal.
    change ("/" +:+ tok +:+ spaces +:+ (word +:+ tail) +:+ b)
      with (String "/" (tok +:+ spaces +:+ (word +:+ tail) +:+ b)).
    rewrite !append_cons. f_equal. rewrite !append_assoc. reflexivity.
Qed.

(** Every message that [handleCommands] takes for /reset, /new, /restart,
    /help, /status, /compact, or for an /activation with a mode, is a control
    command for [hasControlCommand]. *)
Theorem triggers_are_detected (c : CommandContext) :
  let body := commandBodyNormalized c in
  resetRequested c = true
  \/ restartRequested c = true
  \/ helpRequested c = true
  \/ String.eqb body "/status" || Js.startsWith body "/status " = true
  \/ compactRequested c = true
  \/ (exists m, mode (activationCommand c) = Some m) ->
  hasControlCommand (Some body) = true.
Proof.
  intros body [R | [R | [R | [R | [R | [m R]]]]]].
  - unfold resetRequested in R. fold body in R.
    apply orb_true_iff in R as [R | R]; apply String.eqb_eq in R;
      rewrite R; reflexivity.
  - apply (exact_or_spaced_detected body "restart");
      [vm_compute; tauto | exact R].
  - unfold helpRequested in R. fold body in R.
    apply orb_true_iff in R as [R | R].
    + apply String.eqb_eq in R. rewrite R. reflexivity.
    + apply help_pattern_detected, R.
  - apply (exact_or_spaced_detected body "status");
      [vm_compute; tauto | exact R].
  - apply (exact_or_spaced_detected body "compact");
      [vm_compute; tauto | exact R].
  - apply (activation_with_mode_detected body m R).
Qed.

(** An /activation followed at once by a character that is neither a word
    character, nor a white space, nor a colon is a command for
    [parseActivationCommand] and no control command for
    [hasControlCommand]. *)
Theorem activation_not_always_detected (c : ascii) :
  Js.isWordChar c = false ->
  Js.isWhiteSpace c = false ->
  c <> ":"%char ->
  let body := "/activation" +:+ String c "" in
  parseActivationCommand (Some body) = {| hasCommand := true; mode := None |}
  /\ hasControlCommand (Some body) = false.
Proof.
  destruct c as [[] [] [] [] [] [] [] []]; intros W S C;
    first [discriminate W | discriminate S | exfalso; apply C; reflexivity
          | split; vm_compute; reflexivity].
Qed.

End Triggers.


(** ** Helpers of the handler *)

Section Helpers.
Context `{Collaborators}.

Lemma trimEnd_fixed_tail (c : ascii) (r : string) :
  Js.trimEnd (String c r) = String c r -> Js.trimEnd r = r.
Proof.
  rewrite trimEnd_cons. destruct (Js.trimEnd r) as [| d t] eqn:E.
  - destruct (Js.isWhiteSpace c); intros I; inversion I; reflexivity.
  - intros I. inversion I. reflexivity.
Qed.

Lemma slice_fixed (n : nat) (t : string) :
  Js.trimEnd t = t -> Js.trimEnd (Js.slice n t) = Js.slice n t.
Proof.
  revert t. induction n as [| n IH]; intros t F; [exact F |].
  destruct t as [| c r]; [reflexivity |]. cbn [Js.slice].
  apply IH, (trimEnd_fixed_tail c r F).
Qed.

Lemma trimStart_fixed (t : string) :
  Js.trimEnd t = t -> Js.trimEnd (Js.trimStart t) = Js.trimStart t.
Proof.
  induction t as [| c r IH]; intros F; [reflexivity |]. cbn [Js.trimStart].
  destruct (Js.isWhiteSpace c); [| exact F].
  apply IH, (trimEnd_fixed_tail c r F).
Qed.

Lemma slice_split (n : nat) (t : string) :
  exists a, t = a +:+ Js.slice n t.
Proof.
  revert t. induction n as [| n IH]; intros t; [exists ""; reflexivity |].
  destruct t as [| c r]; [exists ""; reflexivity |].
  destruct (IH r) as [a E]. exists (String c a). cbn [Js.slice].
  rewrite append_cons, <- E. reflexivity.
Qed.

Lemma trim_of_fixed (r : string) :
  startsClean r = true -> Js.trimEnd r = r -> Js.trim r = r.
Proof.
  intros C F. unfold Js.trim. rewrite (trimStart_of_clean r C). exact F.
Qed.

(** The instructions [extractCompactInstructions] returns are not empty,
    have no white space at either end, and are the end of a message that
    starts with a casing of [/compact]. *)
Theorem extractCompactInstructions_result
        (rawBody : option string) (ctx : MsgContext) (cfg : ClawdbotConfig)
        (isGroup : bool) (r : string) :
  let raw := stripStructuralPrefixes (default "" rawBody) in
  let stripped := if isGroup then stripMentions raw ctx cfg else raw in
  extractCompactInstructions rawBody ctx cfg isGroup = Some r ->
  r <> ""
  /\ Js.trim r = r
  /\ Js.startsWith (Js.toLowerCase (Js.trim stripped)) "/compact" = true
  /\ exists skipped, Js.trim stripped = skipped +:+ r.
Proof.
  intros raw stripped. unfold extractCompactInstructions.
  fold raw. fold stripped. cbv zeta.
  destruct (Js.truthy (Some (Js.trim stripped))); [| discriminate].
  cbn [negb].
  destruct (Js.startsWith (Js.toLowerCase (Js.trim stripped)) "/compact");
    [| discriminate].
  cbn [negb].
  set (rest := Js.trimStart (Js.slice (String.length "/compact")
                                      (Js.trim stripped))).
  assert (F : Js.trimEnd (Js.trim stripped) = Js.trim stripped)
    by apply trimEnd_idempotent.
  assert (F1 : Js.trimEnd rest = rest)
    by (apply trimStart_fixed, slice_fixed, F).
  assert (S1 : exists a, Js.trim stripped = a +:+ rest).
  { destruct (slice_split (String.length "/compact") (Js.trim stripped))
      as [a Ea].
    destruct (trimStart_split (Js.slice (String.length "/compact")
                                        (Js.trim stripped))) as (b & Eb & _).
    exists (a +:+ b). rewrite append_assoc. fold rest in Eb.
    rewrite <- Eb. exact Ea. }
  assert (C1 : startsClean rest = true) by apply trimStart_clean.
  destruct (Js.startsWith rest ":").
  - set (rest' := Js.trimStart (Js.slice 1 rest)).
    assert (F2 : Js.trimEnd rest' = rest')
      by (apply trimStart_fixed, slice_fixed, F1).
    assert (C2 : startsClean rest' = true) by apply trimStart_clean.
    destruct rest' as [| c t] eqn:R; [discriminate |].
    intros I. inversion I; subst r.
    split; [discriminate |]. split; [apply trim_of_fixed; assumption |].
    split; [reflexivity |].
    destruct S1 as [a Ea]. destruct (slice_split 1 rest) as [b Eb].
    destruct (trimStart_split (Js.slice 1 rest)) as (d & Ed & _).
    fold rest' in Ed. rewrite R in Ed.
    exists (a +:+ b +:+ d). rewrite !append_assoc, <- Ed, <- Eb. exact Ea.
  - destruct rest as [| c t] eqn:R; [discriminate |].
    intros I. inversion I; subst r.
    split; [discriminate |]. split; [apply trim_of_fixed; assumption |].
    split; [reflexivity | exact S1].
Qed.

(** [resolveModelAuthLabel] has no label exactly for a provider that is
    missing or blank; a label is one of mixed, oauth, api-key and unknown;
    and a profile of the provider with the type oauth makes the label oauth
    or mixed, whatever the environment holds. *)
Theorem resolveModelAuthLabel_labels (provider : option string)
        (cfg : ClawdbotConfig) :
  (resolveModelAuthLabel provider cfg = None
   <-> Js.truthy (option_map Js.trim provider) = false)
  /\ (forall l, resolveModelAuthLabel provider cfg = Some l ->
                In l ["mixed"; "oauth"; "api-key"; "unknown"])
  /\ (forall name id,
         provider = Some name -> Js.trim name <> "" ->
         In id (listProfilesForProvider ensureAuthProfileStore
                                        (Js.trim name)) ->
         profiles ensureAuthProfileStore !! id = Some (Some "oauth") ->
         resolveModelAuthLabel provider cfg = Some "oauth"
         \/ resolveModelAuthLabel provider cfg = Some "mixed").
Proof.
  unfold resolveModelAuthLabel.
  destruct (option_map Js.trim provider) as [[| c0 r0] |] eqn:P.
  - split; [split; reflexivity |]. split; [discriminate |].
    intros name id -> N. cbn in P. congruence.
  - cbv zeta.
    set (resolved := String c0 r0).
    set (ids := listProfilesForProvider ensureAuthProfileStore resolved).
    set (modes := omap _ ids).
    assert (Env :
      match resolveEnvApiKey resolved with
      | Some k =>
          if Js.truthy (apiKey k)
          then Some (if includesText (source k) "OAUTH_TOKEN"
                     then "oauth" else "api-key")
          else if Js.truthy (getCustomProviderApiKey cfg resolved)
               then Some "api-key" else Some "unknown"
      | None =>
          if Js.truthy (getCustomProviderApiKey cfg resolved)
          then Some "api-key" else Some "unknown"
      end <> None
      /\ forall l,
          match resolveEnvApiKey resolved with
          | Some k =>
              if Js.truthy (apiKey k)
              then Some (if includesText (source k) "OAUTH_TOKEN"
                         then "oauth" else "api-key")
              else if Js.truthy (getCustomProviderApiKey cfg resolved)
                   then Some "api-key" else Some "unknown"
          | None =>
              if Js.truthy (getCustomProviderApiKey cfg resolved)
              then Some "api-key" else Some "unknown"
          end = Some l -> In l ["mixed"; "oauth"; "api-key"; "unknown"]).
    { destruct (resolveEnvApiKey resolved) as [k |];
        [destruct (Js.truthy (apiKey k));
         [destruct (includesText (source k) "OAUTH_TOKEN") |] |];
        try destruct (Js.truthy (getCustomProviderApiKey cfg resolved));
        (split; [discriminate |]); intros l E; inversion E; cbn; tauto. }
    destruct Env as [En El].
    split; [| split].
    + split; [| discriminate]. intros E. exfalso.
      destruct ids;
        [| destruct (Js.includes modes "oauth"),
                    (Js.includes modes "api_key"); cbn in E];
        first [discriminate E | exact (En E)].
    + intros l E.
      destruct ids;
        [| destruct (Js.includes modes "oauth"),
                    (Js.includes modes "api_key"); cbn in E];
        first [apply (El l E) | inversion E; cbn; tauto].
    + intros name id -> N I Ty. cbn in P. injection P as P.
      fold resolved in P. rewrite P in I. fold ids in I.
      assert (O : Js.includes modes "oauth" = true).
      { apply includes_In. subst modes. apply list_elem_of_In.
        apply list_elem_of_omap. exists id.
        split; [apply list_elem_of_In, I |]. rewrite Ty. reflexivity. }
      rewrite O. destruct ids; [contradiction |].
      destruct (Js.includes modes "api_key"); cbn; auto.
  - split; [split; reflexivity |]. split; [discriminate |].
    intros name id ->. discriminate P.
Qed.

End Helpers.


(** ** What each branch of the handler does *)

Section Branches.
Context `{Collaborators}.

Lemma handleCommands_handled (p : Params) :
  handleCommands p
  = match handled p with
    | CmdReset =>
        bind (logVerbose ("Ignoring /reset from unauthorized sender: "
                          +:+ senderLabel (command p)))
             (fun _ => ret silentDrop)
    | CmdActivation => activationBranch p
    | CmdSendPolicy => sendPolicyBranch p
    | CmdRestart => restartBranch p
    | CmdHelp => helpBranch p
    | CmdStatus => statusBranch p
    | CmdCompact => compactBranch p
    | CmdAbort => abortBranch p
    | CmdNone => sendPolicyGate p
    end.
Proof.
  unfold handleCommands, handled. cbv zeta.
  destruct (resetRequested (command p)
            && negb (isAuthorizedSender (command p))); [reflexivity |].
  destruct (hasCommand (activationCommand (command p))); [reflexivity |].
  destruct (SendPolicy.hasCommand (sendPolicyCommand (command p)));
    [reflexivity |].
  destruct (restartRequested (command p)); [reflexivity |].
  destruct (helpRequested (command p)); [reflexivity |].
  destruct (statusRequested (directives p) (command p)); [reflexivity |].
  destruct (compactRequested (command p)); [reflexivity |].
  destruct (abortRequested (command p)); reflexivity.
Qed.

(** A command other than Reset/New is handled as it is classified. *)
Lemma handled_classify (p : Params) :
  classify p <> CmdReset -> handled p = classify p.
Proof.
  unfold handled, classify. cbv zeta.
  destruct (resetRequested (command p)); [congruence | reflexivity].
Qed.

Lemma activationBranch_run (p : Params) (w : World) :
  activationBranch p w
  = if negb (isGroup p)
    then (replyText "⚙️ Group activation only applies to group chats.", w)
    else if activationDenied (command p)
    then (silentDrop,
          emit (EvLogVerbose
                  ("Ignoring /activation from unauthorized sender in group: "
                   +:+ senderLabel (command p))) w)
    else match mode (activationCommand (command p)) with
         | None => (replyText "⚙️ Usage: /activation mention|always", w)
         | Some m =>
             (replyText ("⚙️ Group activation set to " +:+ modeText m +:+ "."),
              match sessionTarget p with
              | Some (e, s, key) => committed p e s key (activationChange m) w
              | None => w
              end)
         end.
Proof.
  unfold activationBranch, activationDenied. cbv zeta.
  destruct (negb (isGroup p)); [reflexivity |].
  destruct (negb (isAuthorizedSender (command p))
            || isWhatsAppSurface (command p)
               && negb (isActivationOwner (command p))); [reflexivity |].
  destruct (mode (activationCommand (command p))) as [m |]; [| reflexivity].
  apply bind_unit_ret.
  destruct (sessionTarget p) as [[[e s] key] |]; [| reflexivity].
  rewrite update_twice_then_touch. reflexivity.
Qed.

Lemma sendPolicyBranch_run (p : Params) (w : World) :
  sendPolicyBranch p w
  = if negb (isAuthorizedSender (command p))
    then (silentDrop,
          emit (EvLogVerbose ("Ignoring /send from unauthorized sender: "
                              +:+ senderLabel (command p))) w)
    else match SendPolicy.mode (sendPolicyCommand (command p)) with
         | None => (replyText "⚙️ Usage: /send on|off|inherit", w)
         | Some m =>
             (replyText ("⚙️ Send policy set to " +:+ sendPolicyLabel m
                         +:+ "."),
              match sessionTarget p with
              | Some (e, s, key) =>
                  committed p e s key (set_sendPolicy (sendPolicyField m)) w
              | None => w
              end)
         end.
Proof.
  unfold sendPolicyBranch. cbv zeta.
  destruct (negb (isAuthorizedSender (command p))); [reflexivity |].
  destruct (SendPolicy.mode (sendPolicyCommand (command p))) as [m |];
    [| reflexivity].
  destruct m; apply bind_unit_ret;
    (destruct (sessionTarget p) as [[[e s] key] |]; [| reflexivity]);
    apply update_then_touch.
Qed.

Lemma abortBranch_run (p : Params) (w : World) :
  abortBranch p w
  = (replyText abortReply,
     match sessionTarget p with
     | Some (e, s, key) =>
         committed p e s key (set_abortedLastRun (Some true)) w
     | None => abortRemembered p w
     end).
Proof.
  unfold abortBranch. apply bind_unit_ret.
  destruct (sessionTarget p) as [[[e s] key] |].
  - apply update_then_touch.
  - unfold abortRemembered.
    destruct (abortKey (command p)) as [[| c k] |]; reflexivity.
Qed.

Lemma statusBranch_run (p : Params) (w : World) :
  isAuthorizedSender (command p) = true ->
  exists t,
    statusBranch p w
    = (replyText t,
       match resolvedThinkLevel p with
       | Some _ => w
       | None => emit EvResolveDefaultThinkingLevel w
       end).
Proof.
  intros A. unfold statusBranch. cbv zeta. rewrite A. cbn [negb].
  unfold bind, readEntry, thinkLevelOrDefault, callResolveDefaultThinkingLevel,
    ret.
  destruct (resolvedThinkLevel p); eexists; reflexivity.
Qed.

(** The send policy [handleCommands] resolves for a message that is no
    command. *)
Lemma sendPolicyGate_policy (p : Params) (w : World) :
  let entry := sessionEntry p ≫= (fun l => entries w !! l) in
  sendPolicyGate p w
  = match resolveSendPolicy
            (cfg p) entry (sessionKey p)
            (default (cmd_surface (command p)) (entry ≫= surface))
            (entry ≫= chatType) with
    | deny =>
        (silentDrop,
         emit (EvLogVerbose ("Send blocked by policy for session "
                             +:+ default "unknown" (sessionKey p))) w)
    | _ => ({| reply := None; shouldContinue := true |}, w)
    end.
Proof.
  cbv zeta. unfold sendPolicyGate, bind, readEntry.
  destruct (resolveSendPolicy _ _ _ _ _); reflexivity.
Qed.

Lemma sendPolicyGate_run (p : Params) (w : World) :
  sendPolicyGate p w = ({| reply := None; shouldContinue := true |}, w)
  \/ sendPolicyGate p w
     = (silentDrop,
        emit (EvLogVerbose ("Send blocked by policy for session "
                            +:+ default "unknown" (sessionKey p))) w).
Proof.
  unfold sendPolicyGate, bind, readEntry.
  destruct (resolveSendPolicy _ _ _ _ _); auto.
Qed.

End Branches.


(** ** The handler as a whole *)

Section Whole.
Context `{Collaborators}.

Lemma sameState_refl (w : World) : sameState w w.
Proof. repeat split. Qed.

Lemma sameState_emit (e : Event) (w : World) : sameState w (emit e w).
Proof. repeat split. Qed.

(** A property of the result that holds whatever the last step returns
    holds of the whole computation. *)
Lemma bind_result {A B} (Q : B -> Prop) (m : M A) (k : A -> M B) (w : World) :
  (forall a w', Q (fst (k a w'))) -> Q (fst (bind m k w)).
Proof. intros K. unfold bind. destruct (m w) as [a w']. apply K. Qed.

Lemma compactBranch_stops (p : Params) (w : World) :
  shouldContinue (fst (compactBranch p w)) = false.
Proof.
  unfold compactBranch. cbv zeta.
  destruct (negb (isAuthorizedSender (command p))); [reflexivity |].
  apply (bind_result (fun r => shouldContinue r = false)). intros entry w1.
  destruct (entry ≫= sessionId) as [[| c sid] |]; try reflexivity.
  repeat (apply (bind_result (fun r => shouldContinue r = false)); intros).
  reflexivity.
Qed.

(** The handler never both replies and lets the message through.  A
    message goes on to the normal handling ([shouldContinue = true]) exactly
    when no branch took it and the send policy resolved for the session is
    not [deny]; then there is no reply and the world is as it was.  Every
    branch that takes a message stops it, and a message that is no command
    is dropped under the policy [deny], with a line of the log. *)
Theorem continue_only_without_command (p : Params) (w : World) :
  let r := handleCommands p w in
  let entry := sessionEntry p ≫= (fun l => entries w !! l) in
  let policy :=
    resolveSendPolicy (cfg p) entry (sessionKey p)
                      (default (cmd_surface (command p)) (entry ≫= surface))
                      (entry ≫= chatType) in
  (shouldContinue (fst r) = true <-> handled p = CmdNone /\ policy <> deny)
  /\ (shouldContinue (fst r) = true -> reply (fst r) = None /\ snd r = w)
  /\ (handled p <> CmdNone -> shouldContinue (fst r) = false)
  /\ (handled p = CmdNone -> policy = deny ->
      r = (silentDrop,
           emit (EvLogVerbose ("Send blocked by policy for session "
                               +:+ default "unknown" (sessionKey p))) w)).
Proof.
  cbv zeta. rewrite handleCommands_handled.
  pose proof (activationBranch_run p w) as Ra.
  pose proof (sendPolicyBranch_run p w) as Rs.
  pose proof (abortBranch_run p w) as Rb.
  pose proof (compactBranch_stops p w) as Rc.
  pose proof (sendPolicyGate_policy p w) as Rg. cbv zeta in Rg.
  assert (Stop : handled p <> CmdNone ->
                 shouldContinue
                   (fst (match handled p with
                         | CmdReset =>
                             bind (logVerbose
                                     ("Ignoring /reset from unauthorized sender: "
                                      +:+ senderLabel (command p)))
                                  (fun _ => ret silentDrop)
                         | CmdActivation => activationBranch p
                         | CmdSendPolicy => sendPolicyBranch p
                         | CmdRestart => restartBranch p
                         | CmdHelp => helpBranch p
                         | CmdStatus => statusBranch p
                         | CmdCompact => compactBranch p
                         | CmdAbort => abortBranch p
                         | CmdNone => sendPolicyGate p
                         end w)) = false).
  { intros N. destruct (handled p); try congruence; try reflexivity.
    - rewrite Ra. destruct (negb (isGroup p)); [reflexivity |].
      destruct (activationDenied (command p)); [reflexivity |].
      destruct (mode (activationCommand (command p))); reflexivity.
    - rewrite Rs. destruct (negb (isAuthorizedSender (command p)));
        [reflexivity |].
      destruct (SendPolicy.mode (sendPolicyCommand (command p)));
        reflexivity.
    - unfold restartBranch. cbv zeta.
      destruct (negb (isAuthorizedSender (command p))); reflexivity.
    - unfold helpBranch. cbv zeta.
      destruct (negb (isAuthorizedSender (command p))); reflexivity.
    - unfold statusBranch. cbv zeta.
      destruct (negb (isAuthorizedSender (command p))); [reflexivity |].
      repeat (apply (bind_result (fun r => shouldContinue r = false));
              intros).
      reflexivity.
    - rewrite Rb. reflexivity. }
  split; [| split; [| split; [exact Stop |]]].
  - split.
    + intros C. destruct (handled p) eqn:Hd;
        try (rewrite Stop in C by discriminate; discriminate C).
      split; [reflexivity |]. intros D. rewrite Rg, D in C.
      discriminate C.
    + intros [N D]. rewrite N, Rg.
      destruct (resolveSendPolicy _ _ _ _ _);
        [reflexivity | contradiction | reflexivity].
  - intros C. destruct (handled p) eqn:Hd;
      try (rewrite Stop in C by discriminate; discriminate C).
    rewrite Rg in C |- *.
    destruct (resolveSendPolicy _ _ _ _ _);
      [split; reflexivity | discriminate C | split; reflexivity].
  - intros N D. rewrite N, Rg, D. reflexivity.
Qed.

(** A sender that is not authorized changes no state, except by an abort
    trigger: the entries, the stores, the disk, the abort memory, the active
    runs and the clock are as before, and the trace gains at most one line
    of the verbose log (so nothing is saved, restarted, stopped or
    compacted). *)
Theorem unauthorized_changes_nothing (p : Params) (w : World) :
  isAuthorizedSender (command p) = false ->
  handled p <> CmdAbort ->
  let w' := snd (handleCommands p w) in
  sameState w w'
  /\ (trace w' = trace w
      \/ exists message, trace w' = (trace w ++ [EvLogVerbose message])%list).
Proof.
  intros U N. cbv zeta. rewrite handleCommands_handled.
  destruct (handled p); try congruence.
  - split; [apply sameState_emit | right; eexists; reflexivity].
  - rewrite activationBranch_run. unfold activationDenied. rewrite U.
    cbn [negb orb]. destruct (negb (isGroup p)).
    + split; [apply sameState_refl | left; reflexivity].
    + split; [apply sameState_emit | right; eexists; reflexivity].
  - rewrite sendPolicyBranch_run, U. cbn [negb].
    split; [apply sameState_emit | right; eexists; reflexivity].
  - unfold restartBranch. cbv zeta. rewrite U. cbn [negb].
    split; [apply sameState_emit | right; eexists; reflexivity].
  - unfold helpBranch. cbv zeta. rewrite U. cbn [negb].
    split; [apply sameState_emit | right; eexists; reflexivity].
  - unfold statusBranch. cbv zeta. rewrite U. cbn [negb].
    split; [apply sameState_emit | right; eexists; reflexivity].
  - unfold compactBranch. cbv zeta. rewrite U. cbn [negb].
    split; [apply sameState_emit | right; eexists; reflexivity].
  - destruct (sendPolicyGate_run p w) as [G | G]; rewrite G.
    + split; [apply sameState_refl | left; reflexivity].
    + split; [apply sameState_emit | right; eexists; reflexivity].
Qed.

Lemma read_only_same (p : Params) (w : World) :
  In (handled p) [CmdReset; CmdRestart; CmdHelp; CmdStatus; CmdNone] ->
  sameState w (snd (handleCommands p w)).
Proof.
  intros I. rewrite handleCommands_handled.
  destruct (handled p);
    try (exfalso; cbn in I; intuition discriminate).
  - apply sameState_emit.
  - unfold restartBranch. cbv zeta.
    destruct (negb (isAuthorizedSender (command p)));
      apply sameState_emit.
  - unfold helpBranch. cbv zeta.
    destruct (negb (isAuthorizedSender (command p)));
      [apply sameState_emit | apply sameState_refl].
  - destruct (isAuthorizedSender (command p)) eqn:A.
    + destruct (statusBranch_run p w A) as [t ->].
      destruct (resolvedThinkLevel p);
        [apply sameState_refl | apply sameState_emit].
    + unfold statusBranch. cbv zeta. rewrite A. apply sameState_emit.
  - destruct (sendPolicyGate_run p w) as [G | G]; rewrite G;
      [apply sameState_refl | apply sameState_emit].
Qed.

(** /restart, /help, /status, a dropped /reset and a message that is no
    command change no state, whoever sends them. *)
Theorem read_only_commands (p : Params) (w : World) :
  In (handled p) [CmdReset; CmdRestart; CmdHelp; CmdStatus; CmdNone] ->
  sameState w (snd (handleCommands p w)).
Proof. apply read_only_same. Qed.

(** An /activation or a /send that is allowed and has no valid mode is
    answered with the usage text and changes nothing, the trace included. *)
Theorem usage_reply_changes_nothing (p : Params) (w : World) :
  (handled p = CmdActivation /\ isGroup p = true
   /\ activationDenied (command p) = false
   /\ mode (activationCommand (command p)) = None)
  \/ (handled p = CmdSendPolicy /\ isAuthorizedSender (command p) = true
      /\ SendPolicy.mode (sendPolicyCommand (command p)) = None) ->
  handleCommands p w
  = (replyText (match handled p with
                | CmdActivation => "⚙️ Usage: /activation mention|always"
                | _ => "⚙️ Usage: /send on|off|inherit"
                end), w).
Proof.
  intros [(Hd & G & D & Mo) | (Hd & A & Mo)];
    rewrite handleCommands_handled, Hd.
  - rewrite activationBranch_run, G, D, Mo. reflexivity.
  - rewrite sendPolicyBranch_run, A, Mo. reflexivity.
Qed.

End Whole.


Section Frame.
Context `{Collaborators}.

Lemma withinFrame_same (p : Params) (w w' : World) :
  sameState w w' -> withinFrame p w w'.
Proof.
  intros (E & S & D & A & R & C). unfold withinFrame.
  rewrite E, S, D, A, R, C. repeat split.
Qed.

Lemma committed_activeRuns p e s key f w :
  activeRuns (committed p e s key f w) = activeRuns w.
Proof.
  unfold committed. destruct (storePath p) as [[| c path] |]; reflexivity.
Qed.

Lemma withinFrame_committed (p : Params) (e s : loc) (key : string)
      (f : SessionEntry -> SessionEntry) (w : World) :
  sessionTarget p = Some (e, s, key) ->
  withinFrame p w (committed p e s key f w).
Proof.
  intros T. destruct (sessionTarget_Some p e s key T) as (Te & Ts & Tk & _).
  unfold withinFrame.
  rewrite committed_entries, committed_stores, committed_abortMemory,
    committed_activeRuns, committed_clock.
  repeat split.
  - intros l N. apply lookup_alter_ne. congruence.
  - intros sl N. apply lookup_alter_ne. congruence.
  - intros sl k N. rewrite lookup_alter.
    destruct (decide (s = sl)) as [<- |]; [| reflexivity].
    destruct (stores w !! s) as [m |]; [| reflexivity]. cbn.
    apply lookup_insert_ne. congruence.
  - intros path N. pose proof (committed_disk p e s key f w) as D.
    cbv zeta in D.
    destruct (storePath p) as [[| c sp] |]; destruct D as [D _]; rewrite D;
      try reflexivity.
    apply lookup_insert_ne. congruence.
Qed.

Lemma withinFrame_abortRemembered (p : Params) (w : World) :
  withinFrame p w (abortRemembered p w).
Proof.
  unfold abortRemembered.
  destruct (abortKey (command p)) as [[| c k] |] eqn:K;
    try (apply withinFrame_same, sameState_refl).
  unfold withinFrame. rewrite K. repeat split.
  intros k' N. cbn. apply lookup_insert_ne. congruence.
Qed.

(** Whatever the message, a compaction apart, the handler leaves alone
    every entry object but the one it was given, every store object but the
    one it was given and in that one every key but the session key, every
    store file but the one at the store path, every key of the abort memory
    but the abort key, the set of active runs and the clock. *)
Theorem handler_frame (p : Params) (w : World) :
  handled p <> CmdCompact ->
  withinFrame p w (snd (handleCommands p w)).
Proof.
  intros N.
  destruct (handled p) eqn:Hd; try congruence;
    try (apply withinFrame_same, read_only_same; rewrite Hd; cbn; tauto).
  - rewrite handleCommands_handled, Hd, activationBranch_run.
    destruct (negb (isGroup p));
      [apply withinFrame_same, sameState_refl |].
    destruct (activationDenied (command p));
      [apply withinFrame_same, sameState_emit |].
    destruct (mode (activationCommand (command p))) as [am |];
      [| apply withinFrame_same, sameState_refl].
    cbn [snd]. destruct (sessionTarget p) as [[[e s] key] |] eqn:T;
      [apply withinFrame_committed, T
      | apply withinFrame_same, sameState_refl].
  - rewrite handleCommands_handled, Hd, sendPolicyBranch_run.
    destruct (negb (isAuthorizedSender (command p)));
      [apply withinFrame_same, sameState_emit |].
    destruct (SendPolicy.mode (sendPolicyCommand (command p))) as [sm |];
      [| apply withinFrame_same, sameState_refl].
    cbn [snd]. destruct (sessionTarget p) as [[[e s] key] |] eqn:T;
      [apply withinFrame_committed, T
      | apply withinFrame_same, sameState_refl].
  - rewrite handleCommands_handled, Hd, abortBranch_run. cbn [snd].
    destruct (sessionTarget p) as [[[e s] key] |] eqn:T;
      [apply withinFrame_committed, T | apply withinFrame_abortRemembered].
Qed.

(** An /activation with a mode, in a group and not denied, with the session
    entry, store and key present: [groupActivation] becomes the mode,
    [groupActivationNeedsSystemIntro] becomes [true], [updatedAt] the
    current time; the entry is put in the store under the key; the reply
    names the mode; the store is written when there is a store path and
    only then. *)
Theorem activation_update (p : Params) (w : World) (m : GroupActivationMode)
        (e s : loc) (key : string) (x : SessionEntry)
        (smap : gmap string loc) :
  classify p = CmdActivation ->
  isGroup p = true ->
  activationDenied (command p) = false ->
  mode (activationCommand (command p)) = Some m ->
  sessionTarget p = Some (e, s, key) ->
  entries w !! e = Some x ->
  stores w !! s = Some smap ->
  let r := handleCommands p w in
  exists x',
    fst r = replyText ("⚙️ Group activation set to " +:+ modeText m +:+ ".")
    /\ entries (snd r) !! e = Some x'
    /\ groupActivation x' = Some m
    /\ groupActivationNeedsSystemIntro x' = Some true
    /\ updatedAt x' = clock w
    /\ stores (snd r) !! s = Some (<[key := e]> smap)
    /\ match storePath p with
       | Some (String _ _ as path) =>
           disk (snd r) = <[path := snapshot (snd r) s]> (disk w)
           /\ snapshot (snd r) s !! key = Some x'
           /\ trace (snd r)
              = (trace w ++ [EvSaveSessionStore path (snapshot (snd r) s)])%list
       | _ => disk (snd r) = disk w /\ trace (snd r) = trace w
       end.
Proof.
  intros C G D Mo T Le Ls r. subst r.
  exists (set_updatedAt (clock w) (activationChange m x)).
  rewrite (confirmed_dispatch p w _ _ (confirms_activation p m C G D Mo)), T.
  cbn [fst snd].
  split; [reflexivity |].
  split; [apply committed_lookup; exact Le |].
  split; [reflexivity |]. split; [reflexivity |]. split; [reflexivity |].
  split; [eapply committed_store_lookup; exact Ls |].
  pose proof (committed_disk p e s key (activationChange m) w) as Dk.
  pose proof (committed_snapshot_lookup p e s key (activationChange m) w x
                smap Le Ls) as S.
  cbv zeta in Dk.
  destruct (storePath p) as [[| c path] |]; try exact Dk.
  destruct Dk as [D1 D2]. repeat split; assumption.
Qed.

(** A confirmed command changes, of the entry, only its own fields and
    [updatedAt]: the session id, the compaction count, the token counters,
    the chat type, the surface and the skills snapshot stay, and so do the
    group activation (but for /activation), the send policy (but for /send)
    and the abort flag (but for an abort). *)
Theorem confirmed_changes_own_fields (p : Params) (w : World) (t : string)
        (f : SessionEntry -> SessionEntry) (e s : loc) (key : string)
        (x : SessionEntry) :
  Confirms p t f ->
  sessionTarget p = Some (e, s, key) ->
  entries w !! e = Some x ->
  exists x',
    entries (snd (handleCommands p w)) !! e = Some x'
    /\ updatedAt x' = clock w
    /\ sessionId x' = sessionId x
    /\ compactionCount x' = compactionCount x
    /\ inputTokens x' = inputTokens x
    /\ outputTokens x' = outputTokens x
    /\ totalTokens x' = totalTokens x
    /\ contextTokens x' = contextTokens x
    /\ chatType x' = chatType x
    /\ surface x' = surface x
    /\ skillsSnapshot x' = skillsSnapshot x
    /\ (classify p <> CmdActivation ->
        groupActivation x' = groupActivation x
        /\ groupActivationNeedsSystemIntro x'
           = groupActivationNeedsSystemIntro x)
    /\ (classify p <> CmdSendPolicy -> sendPolicy x' = sendPolicy x)
    /\ (classify p <> CmdAbort -> abortedLastRun x' = abortedLastRun x).
Proof.
  intros Cf T Le. exists (set_updatedAt (clock w) (f x)).
  rewrite (confirmed_dispatch p w t f Cf), T. cbn [snd].
  split; [apply committed_lookup; exact Le |].
  destruct Cf as [m C G D Mo | m C A Mo | C]; rewrite C;
    repeat split; try reflexivity; intros; congruence.
Qed.

End Frame.


Section CompactionRun.
Context `{Collaborators}.

(** The whole run of an authorized /compact for an entry with a session
    id. *)
Lemma compact_run (p : Params) (w : World) (l : loc) (x : SessionEntry)
      (sid : string) :
  classify p = CmdCompact ->
  isAuthorizedSender (command p) = true ->
  sessionEntry p = Some l ->
  entries w !! l = Some x ->
  sessionId x = Some sid ->
  sid <> "" ->
  let active := bool_decide (sid ∈ activeRuns w) in
  let ended := runEndsWithin sid 15000 in
  let thinkLevel :=
    match resolvedThinkLevel p with
    | Some t => Some t
    | None => resolveDefaultThinkingLevel p
    end in
  let args := compactArgs p sid (skillsSnapshot x) thinkLevel in
  let running :=
    if active && ended then activeRuns w ∖ {[sid]} else activeRuns w in
  exists summary rest,
    fst (handleCommands p w)
    = replyText ("⚙️ " +:+ compactLine (compactionOutcome args running)
                             summary)
    /\ trace (snd (handleCommands p w))
       = (trace w
          ++ [EvIsEmbeddedPiRunActive sid]
          ++ (if active
              then [EvAbortEmbeddedPiRun sid;
                    EvWaitForEmbeddedPiRunEnd sid 15000 ended]
              else [])
          ++ match resolvedThinkLevel p with
             | Some _ => []
             | None => [EvResolveDefaultThinkingLevel]
             end
          ++ [EvCompactEmbeddedPiSession args] ++ rest
          ++ [EvEnqueueSystemEvent
                (compactLine (compactionOutcome args running) summary)])%list.
Proof.
  intros C A Se Le Sid Ne active ended thinkLevel args running.
  rewrite (dispatch_compact p C). unfold compactBranch. cbv zeta.
  rewrite A. cbn [negb].
  destruct sid as [| c sid']; [congruence |].
  cbv beta iota zeta delta
      [bind readEntry isEmbeddedPiRunActive when abortEmbeddedPiRun
       waitForEmbeddedPiRunEnd modify ret thinkLevelOrDefault
       callResolveDefaultThinkingLevel compactEmbeddedPiSession
       enqueueSystemEvent].
  rewrite Se. cbn [mbind option_bind]. rewrite Le.
  cbn [mbind option_bind]. rewrite Sid.
  fold active. fold ended.
  assert (Tail : forall (W : World) (b : bool) (line : string)
                        (R : DispatchResult),
             exists rest,
               trace (snd (let '(_, w') :=
                             (if b then incrementCompactionCount p
                              else fun w0 => (tt, w0)) W in
                           (R, emit (EvEnqueueSystemEvent line) w')))
               = (trace W ++ rest ++ [EvEnqueueSystemEvent line])%list
               /\ fst (let '(_, w') :=
                         (if b then incrementCompactionCount p
                          else fun w0 => (tt, w0)) W in
                       (R, emit (EvEnqueueSystemEvent line) w')) = R).
  { intros W b line R. destruct b.
    - destruct (increment_appends p W) as (rest & w' & E & T).
      rewrite E. cbn [fst snd trace emit]. rewrite T.
      exists rest. rewrite <- app_assoc. split; reflexivity.
    - cbn [fst snd trace emit]. exists []. split; reflexivity. }
  subst running.
  destruct (resolvedThinkLevel p) as [t |], active, ended;
    match goal with
    | |- context [ (if ?b then incrementCompactionCount p else _) ?W ] =>
        match goal with
        | |- context [ emit (EvEnqueueSystemEvent ?line) ] =>
            match goal with
            | |- context [ replyText ?R ] =>
                destruct (Tail W b line (replyText R)) as (rest & T1 & T2)
            end
        end
    end;
    eexists _, rest; (split; [rewrite T2 | rewrite T1]);
    cbn [trace emit with_activeRuns activeRuns andb].
  all: try reflexivity.
  all: rewrite <- !app_assoc; reflexivity.
Qed.

(** An authorized /compact for a session whose run is not active: the
    handler asks whether the run is active and then calls the compaction; it
    stops no run and waits for none. *)
Theorem compact_without_active_run (p : Params) (w : World) (l : loc)
        (x : SessionEntry) (sid : string) :
  classify p = CmdCompact ->
  isAuthorizedSender (command p) = true ->
  sessionEntry p = Some l ->
  entries w !! l = Some x ->
  sessionId x = Some sid ->
  sid <> "" ->
  sid ∉ activeRuns w ->
  let thinkLevel :=
    match resolvedThinkLevel p with
    | Some t => Some t
    | None => resolveDefaultThinkingLevel p
    end in
  let args := compactArgs p sid (skillsSnapshot x) thinkLevel in
  exists rest,
    trace (snd (handleCommands p w))
    = (trace w
       ++ [EvIsEmbeddedPiRunActive sid]
       ++ match resolvedThinkLevel p with
          | Some _ => []
          | None => [EvResolveDefaultThinkingLevel]
          end
       ++ [EvCompactEmbeddedPiSession args] ++ rest)%list.
Proof.
  intros C A Se Le Sid Ne Act thinkLevel args.
  destruct (compact_run p w l x sid C A Se Le Sid Ne)
    as (summary & rest & _ & T).
  rewrite (bool_decide_eq_false_2 _ Act) in T. cbn [app] in T.
  eexists. rewrite T. reflexivity.
Qed.

(** An authorized /compact for an entry with a session id: the reply is the
    gear sign followed by a line, and the last thing the handler does is to
    enqueue that same line as a system event. *)
Theorem compact_reply_is_system_event (p : Params) (w : World) (l : loc)
        (x : SessionEntry) (sid : string) :
  classify p = CmdCompact ->
  isAuthorizedSender (command p) = true ->
  sessionEntry p = Some l ->
  entries w !! l = Some x ->
  sessionId x = Some sid ->
  sid <> "" ->
  exists line before,
    fst (handleCommands p w) = replyText ("⚙️ " +:+ line)
    /\ trace (snd (handleCommands p w))
       = (before ++ [EvEnqueueSystemEvent line])%list.
Proof.
  intros C A Se Le Sid Ne.
  destruct (compact_run p w l x sid C A Se Le Sid Ne)
    as (summary & rest & R & T).
  eexists _, _. split; [exact R |]. rewrite T.
  rewrite !app_assoc. reflexivity.
Qed.

End CompactionRun.

Section ResetAndAbort.
Context `{Collaborators}.

Lemma reset_body_triggers (c : CommandContext) :
  resetRequested c = true ->
  hasCommand (activationCommand c) = false
  /\ restartRequested c = false
  /\ helpRequested c = false
  /\ compactRequested c = false
  /\ forall d, statusRequested d c = hasStatusDirective d.
Proof.
  unfold resetRequested, activationCommand, restartRequested, helpRequested,
    compactRequested, statusRequested.
  intros R. apply orb_true_iff in R as [R | R]; apply String.eqb_eq in R;
    rewrite R; repeat split; try reflexivity;
    intros d; destruct (hasStatusDirective d); reflexivity.
Qed.

(** The /reset or /new of an authorized sender is not consumed by the
    handler (when it is no /send for [parseSendPolicyCommand]): the handler
    goes on as for a message that is no slash command, to the status
    directive, the abort trigger and the send policy. *)
Theorem authorized_reset_passes (p : Params) :
  resetRequested (command p) = true ->
  isAuthorizedSender (command p) = true ->
  SendPolicy.hasCommand (sendPolicyCommand (command p)) = false ->
  handleCommands p
  = if hasStatusDirective (directives p) then statusBranch p
    else if abortRequested (command p) then abortBranch p
    else sendPolicyGate p.
Proof.
  intros R A S.
  destruct (reset_body_triggers (command p) R) as (Ac & Rs & He & Co & St).
  unfold handleCommands. cbv zeta.
  rewrite R, A, Ac, S, Rs, He, Co, St. cbn [negb andb]. reflexivity.
Qed.

(** An abort trigger when the entry, the store or the key is missing, in a
    context made by [buildCommandContext]: the abort memory is written under
    the session key when there is one that is not empty; under the sender,
    or else the receiver, when there is no session key at all; and not
    written when the session key is the empty string. *)
Theorem abort_memory_key (p : Params) (w : World) (body : string)
        (authorized : bool) :
  command p = buildCommandContext (ctx p) (cfg p) (sessionKey p) (isGroup p)
                                  body authorized ->
  classify p = CmdAbort ->
  sessionTarget p = None ->
  let auth := resolveCommandAuthorization (ctx p) (cfg p) authorized in
  abortMemory (snd (handleCommands p w))
  = match sessionKey p with
    | Some (String _ _ as key) => <[key := true]> (abortMemory w)
    | Some EmptyString => abortMemory w
    | None =>
        match auth_from auth with
        | Some (String _ _ as sender) => <[sender := true]> (abortMemory w)
        | _ =>
            match auth_to auth with
            | Some (String _ _ as receiver) =>
                <[receiver := true]> (abortMemory w)
            | _ => abortMemory w
            end
        end
    end.
Proof.
  intros B C T auth.
  rewrite (dispatch_abort p C), abortBranch_run, T. cbn [snd].
  unfold abortRemembered. rewrite B. unfold buildCommandContext.
  cbn [abortKey]. fold auth.
  destruct (sessionKey p) as [[| c k] |]; try reflexivity.
  destruct (auth_from auth) as [[| c f] |]; cbn [Js.truthy];
    try reflexivity;
    destruct (auth_to auth) as [[| c' t] |]; reflexivity.
Qed.

End ResetAndAbort.


Section StatusReport.
Context `{Collaborators}.

(** An authorized /status: the reply is the status text built from the
    entry as it is, the thinking level (the resolved one, or else the
    default one), the label of the model authorization, and, in a group
    only, the group activation: the one stored in the entry when there is
    one, or else the default one. *)
Theorem status_report (p : Params) (w : World) :
  handled p = CmdStatus ->
  isAuthorizedSender (command p) = true ->
  let entry := sessionEntry p ≫= (fun l => entries w !! l) in
  exists args,
    fst (handleCommands p w) = replyText (buildStatusMessage args)
    /\ sa_sessionEntry args = entry
    /\ sa_groupActivation args
       = (if isGroup p
          then Some (default (defaultGroupActivation p)
                             (entry ≫= groupActivation))
          else None)
    /\ sa_resolvedThink args
       = match resolvedThinkLevel p with
         | Some t => Some t
         | None => resolveDefaultThinkingLevel p
         end
    /\ sa_modelAuth args = resolveModelAuthLabel (Some (provider p)) (cfg p).
Proof.
  intros Hd A entry. rewrite handleCommands_handled, Hd.
  unfold statusBranch. cbv zeta. rewrite A. cbn [negb].
  unfold bind, readEntry, thinkLevelOrDefault, callResolveDefaultThinkingLevel,
    ret.
  fold entry.
  assert (G : match normalizeGroupActivation
                      (option_map modeText (entry ≫= groupActivation)) with
              | Some m => Some m
              | None => Some (defaultGroupActivation p)
              end
              = Some (default (defaultGroupActivation p)
                              (entry ≫= groupActivation))).
  { destruct (entry ≫= groupActivation) as [[] |]; reflexivity. }
  destruct (resolvedThinkLevel p); cbn [fst]; eexists;
    (split; [reflexivity |]); cbn [sa_sessionEntry sa_groupActivation
                                    sa_resolvedThink sa_modelAuth];
    rewrite G; repeat split; reflexivity.
Qed.

End StatusReport.


(** * The handler on concrete messages *)

Import Sample.

(** ** Evaluations *)

Example parseActivationCommand_examples :
  parseActivationCommand (Some "/activation always")
  = {| hasCommand := true; mode := Some always |}
  /\ parseActivationCommand (Some "  /Activation   MENTION now ")
     = {| hasCommand := true; mode := Some mention |}
  /\ parseActivationCommand (Some "/activation")
     = {| hasCommand := true; mode := None |}
  /\ parseActivationCommand (Some "/activation: always")
     = {| hasCommand := true; mode := None |}
  /\ parseActivationCommand (Some "/activation sometimes")
     = {| hasCommand := true; mode := None |}
  /\ parseActivationCommand (Some "/activations always")
     = {| hasCommand := false; mode := None |}
  /\ parseActivationCommand (Some "please /activation always")
     = {| hasCommand := false; mode := None |}
  /\ parseActivationCommand None = {| hasCommand := false; mode := None |}.
Proof. repeat split; reflexivity. Qed.

Example hasControlCommand_examples :
  hasControlCommand (Some "  /RESET ") = true
  /\ hasControlCommand (Some "tell me /status: now") = true
  /\ hasControlCommand (Some "/thinking high") = true
  /\ hasControlCommand (Some "/to") = false
  /\ hasControlCommand (Some "a/t") = false
  /\ hasControlCommand (Some "/helpful") = false
  /\ hasControlCommand (Some "") = false
  /\ hasControlCommand None = false.
Proof. repeat split; reflexivity. Qed.

Example helpRequested_examples :
  helpRequested (commandOf true "please /help now") = true
  /\ helpRequested (commandOf true "/HELP") = true
  /\ helpRequested (commandOf true "/helpme") = false.
Proof. repeat split; reflexivity. Qed.

Example extractCompactInstructions_examples :
  extractCompactInstructions (Some "/compact: keep the plan") None tt false
  = Some "keep the plan"
  /\ extractCompactInstructions (Some " /COMPACT  ") None tt false = None
  /\ extractCompactInstructions (Some "compact it") None tt false = None.
Proof. repeat split; reflexivity. Qed.

(** ** Where the code departs from a claim as stated *)

(** C5 as stated fails: an authorized "/send on" with the entry, the store
    and the key present, but no store path, changes the entry in memory and
    writes nothing. *)
Lemma send_without_store_path_not_persisted :
  let p := paramsOf true false "/send on" None in
  let r := handleCommands p world0 in
  classify p = CmdSendPolicy
  /\ isAuthorizedSender (command p) = true
  /\ SendPolicy.mode (sendPolicyCommand (command p)) = Some allow
  /\ sessionTarget p = Some (1%positive, 2%positive, "main")
  /\ (entries (snd r) !! 1%positive) ≫= sendPolicy = Some allow
  /\ disk (snd r) = ∅
  /\ trace (snd r) = [].
Proof. vm_compute. repeat split; reflexivity. Qed.

(** C7 as stated fails: with a session entry but no session store, an abort
    trigger leaves the entry as it was ([abortedLastRun] stays unset) and
    writes to the abort memory instead; and with entry, store and key but no
    store path, the changed entry is not persisted. *)
Lemma abort_with_entry_not_always_set_or_persisted :
  let p := dispatch false false "stop" (Some 1%positive) None (Some "main")
                    (Some "/store.json") in
  let r := handleCommands p world0 in
  let q := paramsOf false false "stop" None in
  let r' := handleCommands q world0 in
  classify p = CmdAbort
  /\ entries world0 !! 1%positive = Some entry0
  /\ entries (snd r) !! 1%positive = Some entry0
  /\ abortedLastRun entry0 = None
  /\ abortMemory (snd r) !! "main" = Some true
  /\ classify q = CmdAbort
  /\ (entries (snd r') !! 1%positive) ≫= abortedLastRun = Some true
  /\ disk (snd r') = ∅
  /\ trace (snd r') = [].
Proof. vm_compute. repeat split; reflexivity. Qed.


(** C2 as stated fails: a /compact from a sender that is not authorized,
    for an entry with a session id whose run is active, is dropped with a
    line of the log; the run is not asked to stop, nothing is waited for and
    the compaction is not called. *)
Lemma unauthorized_compact_leaves_run :
  let p := paramsOf false true "/compact" None in
  let r := handleCommands p world0 in
  classify p = CmdCompact
  /\ (entries world0 !! 1%positive) ≫= sessionId = Some "sid-1"
  /\ "sid-1" ∈ activeRuns world0
  /\ fst r = silentDrop
  /\ trace (snd r)
     = [EvLogVerbose "Ignoring /compact from unauthorized sender: +15550001"]
  /\ activeRuns (snd r) = activeRuns world0.
Proof.
  cbv zeta. split; [reflexivity |]. split; [reflexivity |].
  split; [apply elem_of_singleton; reflexivity |].
  split; [reflexivity |]. split; reflexivity.
Qed.

(** C9 as stated fails: in "hello/help" and in "x:/v" a slash and a token
    are followed by the end of the text, and the token is bounded by the
    slash on its left; yet neither text is accepted, because the slash is
    neither at the start of the text nor after a white space. *)
Lemma slash_inside_text_not_detected :
  In "help" CONTROL_COMMAND_TOKENS
  /\ In "v" CONTROL_COMMAND_TOKENS
  /\ Js.tokenEnd "" = true
  /\ Js.wordBoundary "/" "help" = true
  /\ Js.wordBoundary "/" "v" = true
  /\ hasControlCommand (Some ("hello" +:+ "/" +:+ "help" +:+ "")) = false
  /\ hasControlCommand (Some ("x:" +:+ "/" +:+ "v" +:+ "")) = false.
Proof. vm_compute. repeat split; tauto. Qed.

(** ** Instances of the theorems *)

Lemma unauthorized_privileged_silent_witness :
  exists message,
    handleCommands (paramsOf false true "/compact" None) world0
    = (silentDrop, emit (EvLogVerbose message) world0).
Proof.
  apply unauthorized_privileged_silent;
    [reflexivity | reflexivity | intros _; reflexivity].
Defined.

Lemma compact_waits_for_active_run_witness :
  let p := paramsOf true true "/compact" None in
  let r := handleCommands p world0 in
  fst r = replyText "⚙️ Compacted (n before) • context"
  /\ exists saved,
       trace (snd r)
       = ([EvIsEmbeddedPiRunActive "sid-1"; EvAbortEmbeddedPiRun "sid-1";
           EvWaitForEmbeddedPiRunEnd "sid-1" 15000 false;
           EvCompactEmbeddedPiSession
             (compactArgs p "sid-1" None (Some "low"))]
          ++ saved
          ++ [EvEnqueueSystemEvent "Compacted (n before) • context"])%list.
Proof.
  intros p r.
  assert (Active : "sid-1" ∈ activeRuns world0)
    by (apply elem_of_singleton; reflexivity).
  assert (Named : "sid-1" <> "") by discriminate.
  assert (Compact : classify p = CmdCompact) by reflexivity.
  assert (Allowed : isAuthorizedSender (command p) = true) by reflexivity.
  assert (Entry : entries world0 !! 1%positive = Some entry0)
    by reflexivity.
  destruct (compact_waits_for_active_run
              p world0 1%positive entry0 "sid-1"
              Compact Allowed eq_refl Entry eq_refl Named Active)
    as (Reply & saved & Trace & _ & _).
  split; [exact Reply |]. exists saved. exact Trace.
Defined.


Lemma activation_outside_group_witness :
  handleCommands (paramsOf false false "/activation always" None) world0
  = (replyText "⚙️ Group activation only applies to group chats.", world0).
Proof. apply activation_outside_group; reflexivity. Defined.

Lemma send_policy_update_witness :
  let p := paramsOf true false "/send inherit" (Some "/store.json") in
  let r := handleCommands p world0 in
  fst r = replyText "⚙️ Send policy set to inherit."
  /\ (entries (snd r) !! 1%positive) ≫= sendPolicy = None
  /\ ((disk (snd r) !! "/store.json")
      ≫= (fun m : gmap string SessionEntry => m !! "main")) ≫= sendPolicy
     = None.
Proof.
  intros p r.
  pose proof (send_policy_update p world0 inherit 1%positive 2%positive
                "main" entry0 {[ "main" := 1%positive ]}) as Update.
  specialize (Update eq_refl eq_refl eq_refl eq_refl eq_refl eq_refl).
  destruct Update as (Reply & Entry & _ & _ & _ & Disk & Snap & _).
  subst r. cbv zeta in Entry, Snap.
  split; [exact Reply |]. split; [rewrite Entry; reflexivity |].
  rewrite Disk, lookup_insert_eq. cbn [mbind option_bind].
  rewrite Snap. reflexivity.
Defined.

Lemma compact_without_session_id_witness :
  let p := dispatch true false "/compact" None None None None in
  handleCommands p world0
  = (replyText "⚙️ Compaction unavailable (missing session id).", world0).
Proof.
  intros p. apply compact_without_session_id;
    [reflexivity | reflexivity | left; reflexivity].
Defined.

Lemma abort_trigger_witness :
  let p := paramsOf false true "stop" (Some "/store.json") in
  let r := handleCommands p world0 in
  isAuthorizedSender (command p) = false
  /\ fst r = replyText "⚙️ Agent was aborted."
  /\ fst (handleCommands p (with_clock 500 (snd r))) = fst r.
Proof.
  intros p r. split; [reflexivity |].
  assert (Abort : classify p = CmdAbort) by reflexivity.
  destruct (abort_trigger p world0 Abort) as (Reply & _ & Again).
  split; [exact Reply |]. exact (proj1 (Again 500%Z)).
Defined.


Lemma hasControlCommand_token_set_witness :
  hasControlCommand (Some "ok /Think: high") = true.
Proof.
  destruct hasControlCommand_token_set as (_ & _ & _ & _ & Token).
  apply (Token "ok " "Think" ": high").
  - vm_compute. tauto.
  - right. exists "ok", " "%char. split; reflexivity.
  - right. exists ":"%char, " high". split; [reflexivity | right; reflexivity].
Defined.

Lemma confirmation_without_persistence_witness :
  let p := dispatch true true "/activation always" (Some 1%positive) None
                    (Some "main") None in
  handleCommands p world0
  = (replyText "⚙️ Group activation set to always.", world0).
Proof.
  intros p.
  assert (Cf : Confirms p "⚙️ Group activation set to always."
                        (activationChange always)).
  { exact (confirms_activation p always eq_refl eq_refl eq_refl eq_refl). }
  destruct (confirmation_without_persistence p world0 _ _ Cf) as [Missing _].
  apply Missing; [right; left; reflexivity | discriminate].
Defined.


(** ** Instances of the further properties *)

Lemma parseActivationCommand_hasCommand_witness :
  hasCommand (parseActivationCommand (Some " /Activation: now")) = true.
Proof.
  apply parseActivationCommand_hasCommand.
  exists "/Activation", ": now". repeat split; reflexivity.
Defined.

Lemma parseActivationCommand_mode_witness :
  mode (parseActivationCommand (Some "/ACTIVATION   Always, please"))
  = Some always.
Proof.
  apply parseActivationCommand_mode.
  exists "/ACTIVATION", "   ", "Always", ", please".
  repeat split; first [reflexivity | discriminate].
Defined.

Lemma hasControlCommand_characterized_witness :
  hasControlCommand (Some "now /Queue: later") = true.
Proof.
  apply hasControlCommand_characterized.
  exists "now ", "Queue", ": later".
  split; [reflexivity |]. split; [vm_compute; tauto |].
  split; reflexivity.
Defined.

Lemma triggers_are_detected_witness :
  hasControlCommand (Some "/compact keep the plan") = true.
Proof.
  apply (triggers_are_detected (commandOf true "/compact keep the plan")).
  right. right. right. right. left. reflexivity.
Defined.

Lemma activation_not_always_detected_witness :
  parseActivationCommand (Some "/activation-")
  = {| hasCommand := true; mode := None |}
  /\ hasControlCommand (Some "/activation-") = false.
Proof.
  apply (activation_not_always_detected "-"%char);
    [reflexivity | reflexivity | discriminate].
Defined.

Lemma extractCompactInstructions_result_witness :
  extractCompactInstructions (Some "  /Compact :  keep the plan ") None tt true
  = Some "keep the plan"
  /\ Js.trim "keep the plan" = "keep the plan".
Proof.
  assert (E : extractCompactInstructions
                (Some "  /Compact :  keep the plan ") None tt true
              = Some "keep the plan") by reflexivity.
  split; [exact E |].
  exact (proj1 (proj2 (extractCompactInstructions_result _ _ _ _ _ E))).
Defined.

Lemma resolveModelAuthLabel_labels_witness :
  In "unknown" ["mixed"; "oauth"; "api-key"; "unknown"]
  /\ resolveModelAuthLabel (Some "anthropic") tt = Some "unknown".
Proof.
  assert (E : resolveModelAuthLabel (Some "anthropic") tt = Some "unknown")
    by reflexivity.
  split; [| exact E].
  exact (proj1 (proj2 (resolveModelAuthLabel_labels (Some "anthropic") tt))
           "unknown" E).
Defined.

Lemma continue_only_without_command_witness :
  shouldContinue
    (fst (handleCommands (paramsOf true true "/help" None) world0)) = false
  /\ handleCommands (paramsOf true true "good morning" None) world0
     = ({| reply := None; shouldContinue := true |}, world0).
Proof.
  assert (N : handled (paramsOf true true "/help" None) <> CmdNone)
    by discriminate.
  split.
  - exact (proj1 (proj2 (proj2 (continue_only_without_command
                                  (paramsOf true true "/help" None) world0)))
             N).
  - destruct (continue_only_without_command
                (paramsOf true true "good morning" None) world0)
      as (Goes & Untouched & _).
    assert (C : shouldContinue
                  (fst (handleCommands
                          (paramsOf true true "good morning" None) world0))
                = true).
    { apply Goes. split; [reflexivity | discriminate]. }
    destruct (Untouched C) as [NoReply Same].
    destruct (handleCommands (paramsOf true true "good morning" None) world0)
      as [[rp sc] w'].
    cbn [fst snd reply shouldContinue] in C, NoReply, Same.
    subst rp sc w'. reflexivity.
Defined.

Lemma unauthorized_changes_nothing_witness :
  sameState world0
    (snd (handleCommands (paramsOf false true "/send off" (Some "/store.json"))
                         world0)).
Proof.
  assert (U : isAuthorizedSender
                (command (paramsOf false true "/send off" (Some "/store.json")))
              = false) by reflexivity.
  assert (N : handled (paramsOf false true "/send off" (Some "/store.json"))
              <> CmdAbort) by discriminate.
  exact (proj1 (unauthorized_changes_nothing _ world0 U N)).
Defined.

Lemma read_only_commands_witness :
  sameState world0
    (snd (handleCommands (paramsOf true true "/restart now" None) world0)).
Proof.
  apply read_only_commands. right. left. reflexivity.
Defined.

Lemma usage_reply_changes_nothing_witness :
  handleCommands (paramsOf true true "/activation sometimes" None) world0
  = (replyText "⚙️ Usage: /activation mention|always", world0).
Proof.
  apply (usage_reply_changes_nothing
           (paramsOf true true "/activation sometimes" None) world0).
  left. repeat split; reflexivity.
Defined.

Lemma handler_frame_witness :
  withinFrame (paramsOf true true "/activation always" (Some "/store.json"))
    world0
    (snd (handleCommands
            (paramsOf true true "/activation always" (Some "/store.json"))
            world0)).
Proof. apply handler_frame. discriminate. Defined.

Lemma activation_update_witness :
  let p := paramsOf true true "/activation always" (Some "/store.json") in
  exists x',
    entries (snd (handleCommands p world0)) !! 1%positive = Some x'
    /\ groupActivation x' = Some always
    /\ groupActivationNeedsSystemIntro x' = Some true.
Proof.
  intros p.
  pose proof (activation_update p world0 always 1%positive 2%positive "main"
                entry0 {[ "main" := 1%positive ]}) as Update.
  specialize (Update eq_refl eq_refl eq_refl eq_refl eq_refl eq_refl eq_refl).
  destruct Update as (x' & _ & Entry & Mode & Intro & _).
  exists x'. auto.
Defined.

Lemma confirmed_changes_own_fields_witness :
  let p := paramsOf false true "stop" None in
  exists x',
    entries (snd (handleCommands p world0)) !! 1%positive = Some x'
    /\ sessionId x' = Some "sid-1"
    /\ sendPolicy x' = Some deny.
Proof.
  intros p.
  assert (Abort : classify p = CmdAbort) by reflexivity.
  pose proof (confirmed_changes_own_fields p world0 _ _ 1%positive 2%positive
                "main" entry0 (confirms_abort p Abort)) as Fields.
  specialize (Fields eq_refl eq_refl).
  destruct Fields as (x' & Entry & _ & Sid & _ & _ & _ & _ & _ & _ & _ & _
                      & _ & Send & _).
  exists x'. split; [exact Entry |]. split; [exact Sid |].
  apply Send. rewrite Abort. discriminate.
Defined.

Lemma compact_without_active_run_witness :
  let p := paramsOf true true "/compact" None in
  exists rest,
    trace (snd (handleCommands p idleWorld))
    = ([EvIsEmbeddedPiRunActive "sid-1"]
       ++ [EvCompactEmbeddedPiSession
             (compactArgs p "sid-1" None (Some "low"))] ++ rest)%list.
Proof.
  intros p.
  assert (Idle : "sid-1" ∉ activeRuns idleWorld)
    by (apply not_elem_of_empty).
  assert (Named : "sid-1" <> "") by discriminate.
  exact (compact_without_active_run p idleWorld 1%positive entry0 "sid-1"
           eq_refl eq_refl eq_refl eq_refl eq_refl Named Idle).
Defined.

Lemma compact_reply_is_system_event_witness :
  let p := paramsOf true true "/compact" None in
  exists line before,
    fst (handleCommands p world0) = replyText ("⚙️ " +:+ line)
    /\ trace (snd (handleCommands p world0))
       = (before ++ [EvEnqueueSystemEvent line])%list.
Proof.
  intros p.
  assert (Named : "sid-1" <> "") by discriminate.
  exact (compact_reply_is_system_event p world0 1%positive entry0 "sid-1"
           eq_refl eq_refl eq_refl eq_refl eq_refl Named).
Defined.

Lemma authorized_reset_passes_witness :
  handleCommands (paramsOf true true "/reset" None) world0
  = ({| reply := None; shouldContinue := true |}, world0).
Proof.
  rewrite (authorized_reset_passes (paramsOf true true "/reset" None));
    reflexivity.
Defined.

Lemma abort_memory_key_witness :
  let p := builtDispatch false false "stop" None None (Some "main") None in
  abortMemory (snd (handleCommands p world0)) = {[ "main" := true ]}.
Proof.
  intros p.
  assert (Abort : classify p = CmdAbort) by reflexivity.
  pose proof (abort_memory_key p world0 "stop" false eq_refl Abort eq_refl)
    as Key.
  cbv zeta in Key. rewrite Key. reflexivity.
Defined.

Lemma status_report_witness :
  let p := paramsOf true true "/status" None in
  exists args,
    fst (handleCommands p world0) = replyText (buildStatusMessage args)
    /\ sa_groupActivation args = Some mention.
Proof.
  intros p.
  assert (Status : handled p = CmdStatus) by reflexivity.
  destruct (status_report p world0 Status eq_refl)
    as (args & Reply & _ & Group & _).
  exists args. split; [exact Reply |]. rewrite Group. reflexivity.
Defined.
